(** * Persian Carpets API: a shallow embedding of [main.py] and [schemas.py]

    The development follows the layout of the repository:
    - [Bson]: the identifiers of the document store and the values a document
      holds;
    - [Carpet], [Review], [OrderItem], [Order], [CatalogQuery]: the pydantic
      models of [schemas.py] and [main.py], each with the payload it is parsed
      from, its validation and its serialisation;
    - the document store and the two helpers of [database.py];
    - the request handlers of [main.py] in a state-and-exception monad;
    - the dispatch of a request to its handler;
    - the properties of the handlers.

    Integers are [Z].  A [float] in a request body is a rational ([Q]): the
    bodies modelled are the well-typed ones whose numbers are finite.  A
    [float] in a stored document is a rational or one of the three
    non-finite doubles, for the store takes any document. *)

From Stdlib Require Import QArith Ascii String.
From stdpp Require Import gmap strings list fin_maps pretty.

Local Open Scope string_scope.
Set Warnings "-register-all".

(** ** Identifiers and values of the document store *)

Module Bson.

(** One hexadecimal digit of an identifier. *)
Inductive hexdigit :=
| X0 | X1 | X2 | X3 | X4 | X5 | X6 | X7
| X8 | X9 | Xa | Xb | Xc | Xd | Xe | Xf.

#[global] Instance hexdigit_eq_dec : EqDecision hexdigit.
Proof. solve_decision. Defined.

(** [str] of an identifier prints lowercase digits. *)
Definition hex_char (h : hexdigit) : ascii :=
  match h with
  | X0 => "0" | X1 => "1" | X2 => "2" | X3 => "3"
  | X4 => "4" | X5 => "5" | X6 => "6" | X7 => "7"
  | X8 => "8" | X9 => "9" | Xa => "a" | Xb => "b"
  | Xc => "c" | Xd => "d" | Xe => "e" | Xf => "f"
  end%char.

(** Parsing accepts both cases. *)
Definition hex_of_char (c : ascii) : option hexdigit :=
  match c with
  | "0" => Some X0 | "1" => Some X1 | "2" => Some X2 | "3" => Some X3
  | "4" => Some X4 | "5" => Some X5 | "6" => Some X6 | "7" => Some X7
  | "8" => Some X8 | "9" => Some X9
  | "a" | "A" => Some Xa | "b" | "B" => Some Xb | "c" | "C" => Some Xc
  | "d" | "D" => Some Xd | "e" | "E" => Some Xe | "f" | "F" => Some Xf
  | _ => None
  end%char.

(** An [ObjectId] is twelve bytes, kept here as its hexadecimal digits. *)
Definition ObjectId := list hexdigit.

(** The identifiers the driver generates have twelve bytes. *)
Definition wf_oid (o : ObjectId) : Prop := length o = 24.

(** [str(oid)] *)
Definition str_oid (o : ObjectId) : string :=
  string_of_list_ascii (hex_char <$> o).

(** ASCII whitespace, which [bytes.fromhex] skips between two bytes. *)
Definition is_space (c : ascii) : bool :=
  match c with
  | " " | "009" | "010" | "011" | "012" | "013" => true
  | _ => false
  end%char.

(** [bytes.fromhex]: pairs of hexadecimal digits, with whitespace allowed
    before each pair and at the end. *)
Fixpoint fromhex (l : list ascii) : option ObjectId :=
  match l with
  | [] => Some []
  | c :: l' =>
      if is_space c then fromhex l'
      else
        match l' with
        | c' :: l'' =>
            match hex_of_char c, hex_of_char c', fromhex l'' with
            | Some h, Some h', Some o => Some (h :: h' :: o)
            | _, _, _ => None
            end
        | [] => None
        end
  end.

(** [ObjectId(s)] for a string [s]: a string of 24 characters that
    [bytes.fromhex] reads, or the [InvalidId] exception ([None]).  With
    whitespace among the 24 characters the identifier has fewer than
    twelve bytes. *)
Definition ObjectId_of_str (s : string) : option ObjectId :=
  if decide (String.length s = 24)
  then fromhex (list_ascii_of_string s)
  else None.

(** A double: a rational, or one of the non-finite values. *)
Inductive float :=
| Finite (q : Q)
| PosInf
| NegInf
| NaN.

Coercion Finite : Q >-> float.

Definition is_finite (x : float) : bool :=
  match x with
  | Finite _ => true
  | _ => false
  end.

(** Equality of two doubles as a query compares them: [NaN] equals
    [NaN]. *)
Definition float_eqb (x y : float) : bool :=
  match x, y with
  | Finite a, Finite b => Qeq_bool a b
  | PosInf, PosInf | NegInf, NegInf | NaN, NaN => true
  | _, _ => false
  end.

(** [x <= m] for a double [x] and a finite bound [m]; [NaN] compares
    false. *)
Definition float_le (x : float) (m : Q) : Prop :=
  match x with
  | Finite q => (q <= m)%Q
  | NegInf => True
  | PosInf | NaN => False
  end.

Definition float_leb (x : float) (m : Q) : bool :=
  match x with
  | Finite q => Qle_bool q m
  | NegInf => true
  | PosInf | NaN => false
  end.

(** The values of a document or of a response body. *)
Inductive value :=
| VNone
| VBool (b : bool)
| VInt (z : Z)
| VFloat (x : float)
| VStr (s : string)
| VOid (o : ObjectId)
| VList (l : list value)
| VDict (d : list (string * value)).

(** Equality of two values as a query compares them; numbers compare by
    value whatever their type. *)
Fixpoint value_eqb (a b : value) {struct a} : bool :=
  match a, b with
  | VNone, VNone => true
  | VBool x, VBool y => Bool.eqb x y
  | VInt x, VInt y => Z.eqb x y
  | VFloat x, VFloat y => float_eqb x y
  | VInt x, VFloat y => float_eqb (inject_Z x) y
  | VFloat x, VInt y => float_eqb x (inject_Z y)
  | VStr x, VStr y => String.eqb x y
  | VOid x, VOid y => bool_decide (x = y)
  | VList l, VList l' =>
      (fix go (l : list value) (l' : list value) {struct l} : bool :=
         match l, l' with
         | [], [] => true
         | x :: xs, y :: ys => value_eqb x y && go xs ys
         | _, _ => false
         end) l l'
  | VDict d, VDict d' =>
      (fix go (d : list (string * value)) (d' : list (string * value))
           {struct d} : bool :=
         match d, d' with
         | [], [] => true
         | (k, x) :: xs, (k', y) :: ys =>
             String.eqb k k' && value_eqb x y && go xs ys
         | _, _ => false
         end) d d'
  | _, _ => false
  end.

(** A document is a dictionary from field names to values. *)
Abbreviation document := (gmap string value).

(** The condition a filter puts on one field: equality with a value, or
    [{"$lte": q}]. *)
Inductive cond :=
| CEq (v : value)
| CLte (q : Q).

(** The number a field holds, if it holds one. *)
Definition number (field : option value) : option float :=
  match field with
  | Some (VFloat x) => Some x
  | Some (VInt z) => Some (Finite (inject_Z z))
  | _ => None
  end.

Definition cond_holds (c : cond) (field : option value) : bool :=
  match c with
  | CEq v =>
      match field with
      | Some v' => value_eqb v v'
      | None => false
      end
  | CLte q =>
      match number field with
      | Some x => float_leb x q
      | None => false
      end
  end.

(** A filter is a dictionary of conditions; a document matches it when
    every condition holds of the document's field of that name. *)
Definition matches (filt : gmap string cond) (d : document) : bool :=
  bool_decide (map_Forall (λ k c, cond_holds c (d !! k) = true) filt).

(** Whether a value can be rendered as JSON: an [ObjectId] and a
    non-finite double cannot. *)
Fixpoint renderable (v : value) : bool :=
  match v with
  | VNone | VBool _ | VInt _ | VStr _ => true
  | VFloat x => is_finite x
  | VOid _ => false
  | VList l =>
      (fix go (l : list value) : bool :=
         match l with
         | [] => true
         | x :: xs => renderable x && go xs
         end) l
  | VDict d =>
      (fix go (d : list (string * value)) : bool :=
         match d with
         | [] => true
         | (_, x) :: xs => renderable x && go xs
         end) d
  end.

Definition renderable_document (d : document) : bool :=
  bool_decide (map_Forall (λ _ v, renderable v = true) d).

(** The first [n] characters of a string, which is held as the bytes of
    its UTF-8 encoding: a byte of the form 10xxxxxx continues the character
    before it. *)
Definition is_continuation (c : ascii) : bool :=
  let n := nat_of_ascii c in (128 <=? n)%nat && (n <? 192)%nat.

Fixpoint take_chars (n : nat) (s : string) : string :=
  match s with
  | EmptyString => EmptyString
  | String c s' =>
      if is_continuation c then String c (take_chars n s')
      else
        match n with
        | 0 => EmptyString
        | S n' => String c (take_chars n' s')
        end
  end.

End Bson.

Import Bson.

(** ** Validation of request bodies

    A request body is given as a payload record: every field of the model,
    [None] when the body leaves it out.  Validation builds the model or
    reports the first field, in declaration order, that fails. *)

Inductive ValidationError :=
| Missing (loc : string)
| GreaterThanEqual (loc : string)
| LessThanEqual (loc : string).

Definition validated (A : Type) : Type := ValidationError + A.

#[global] Instance validated_ret : MRet validated := λ A x, inr x.
#[global] Instance validated_bind : MBind validated :=
  λ A B f m, match m with inl e => inl e | inr x => f x end.

(** [Field(...)]: a required field. *)
Definition required {A} (loc : string) (field : option A) : validated A :=
  match field with
  | Some x => inr x
  | None => inl (Missing loc)
  end.

(** [Field(ge=lo)] and [Field(le=hi)] on an [int]. *)
Definition ge_int (loc : string) (lo : Z) (x : Z) : validated Z :=
  if (lo <=? x)%Z then inr x else inl (GreaterThanEqual loc).

Definition le_int (loc : string) (hi : Z) (x : Z) : validated Z :=
  if (x <=? hi)%Z then inr x else inl (LessThanEqual loc).

(** [Field(ge=lo)] and [Field(le=hi)] on a [float]. *)
Definition ge_float (loc : string) (lo : Q) (x : Q) : validated Q :=
  if Qle_bool lo x then inr x else inl (GreaterThanEqual loc).

Definition le_float (loc : string) (hi : Q) (x : Q) : validated Q :=
  if Qle_bool x hi then inr x else inl (LessThanEqual loc).

(** An [Optional] field: its constraints apply only to a value that is
    there. *)
Definition optional {A} (check : A → validated A) (field : option A)
  : validated (option A) :=
  match field with
  | Some x => x' ← check x; mret (Some x')
  | None => mret None
  end.

(** Serialisation of optional fields and of lists of strings. *)
Definition dump_opt {A} (f : A → value) (o : option A) : value :=
  match o with
  | Some x => f x
  | None => VNone
  end.

Definition dump_strs (l : list string) : value := VList (VStr <$> l).

(** The models serialise to a document ([model_dump]). *)
Class BaseModel (A : Type) := model_dump : A → document.

(** *** [schemas.Carpet] *)

Module Carpet.

Record t := {
  title : string;
  description : option string;
  region : string;
  style : string;
  size_cm : string;
  materials : list string;
  knot_density_kpsi : option Z;
  age_years : option Z;
  price_usd : Q;
  images : list string;
  colors : list string;
  rarity_score : option Q;
  is_featured : bool;
  in_stock : bool
}.

Record payload := {
  p_title : option string;
  p_description : option string;
  p_region : option string;
  p_style : option string;
  p_size_cm : option string;
  p_materials : option (list string);
  p_knot_density_kpsi : option Z;
  p_age_years : option Z;
  p_price_usd : option Q;
  p_images : option (list string);
  p_colors : option (list string);
  p_rarity_score : option Q;
  p_is_featured : option bool;
  p_in_stock : option bool
}.

Definition validate (p : payload) : validated t :=
  title ← required "title" (p_title p);
  region ← required "region" (p_region p);
  style ← required "style" (p_style p);
  size_cm ← required "size_cm" (p_size_cm p);
  knot_density_kpsi ← optional mret (p_knot_density_kpsi p);
  age_years ← optional mret (p_age_years p);
  price_usd ← required "price_usd" (p_price_usd p) ≫= ge_float "price_usd" 0;
  rarity_score ←
    optional (λ x, ge_float "rarity_score" 0 x ≫= le_float "rarity_score" 1)
             (p_rarity_score p);
  mret {| title := title;
          description := p_description p;
          region := region;
          style := style;
          size_cm := size_cm;
          materials := default [] (p_materials p);
          knot_density_kpsi := knot_density_kpsi;
          age_years := age_years;
          price_usd := price_usd;
          images := default [] (p_images p);
          colors := default [] (p_colors p);
          rarity_score := rarity_score;
          is_featured := default false (p_is_featured p);
          in_stock := default true (p_in_stock p) |}.

(** The names of the fields of the model. *)
Definition fields : list string :=
  [ "title"; "description"; "region"; "style"; "size_cm"; "materials";
    "knot_density_kpsi"; "age_years"; "price_usd"; "images"; "colors";
    "rarity_score"; "is_featured"; "in_stock" ].

#[global] Instance dump : BaseModel t := λ c,
  <["title" := VStr (title c)]> $
  <["description" := dump_opt VStr (description c)]> $
  <["region" := VStr (region c)]> $
  <["style" := VStr (style c)]> $
  <["size_cm" := VStr (size_cm c)]> $
  <["materials" := dump_strs (materials c)]> $
  <["knot_density_kpsi" := dump_opt VInt (knot_density_kpsi c)]> $
  <["age_years" := dump_opt VInt (age_years c)]> $
  <["price_usd" := VFloat (price_usd c)]> $
  <["images" := dump_strs (images c)]> $
  <["colors" := dump_strs (colors c)]> $
  <["rarity_score" := dump_opt (λ x : Q, VFloat x) (rarity_score c)]> $
  <["is_featured" := VBool (is_featured c)]> $
  <["in_stock" := VBool (in_stock c)]> ∅.

End Carpet.

(** *** [schemas.Review] *)

Module Review.

Record t := {
  carpet_id : string;
  name : string;
  rating : Z;
  comment : option string
}.

Record payload := {
  p_carpet_id : option string;
  p_name : option string;
  p_rating : option Z;
  p_comment : option string
}.

Definition validate (p : payload) : validated t :=
  carpet_id ← required "carpet_id" (p_carpet_id p);
  name ← required "name" (p_name p);
  rating ← (required "rating" (p_rating p) ≫= ge_int "rating" 1)
           ≫= le_int "rating" 5;
  mret {| carpet_id := carpet_id;
          name := name;
          rating := rating;
          comment := p_comment p |}.

#[global] Instance dump : BaseModel t := λ r,
  <["carpet_id" := VStr (carpet_id r)]> $
  <["name" := VStr (name r)]> $
  <["rating" := VInt (rating r)]> $
  <["comment" := dump_opt VStr (comment r)]> ∅.

End Review.

(** *** [schemas.OrderItem] *)

Module OrderItem.

Record t := {
  carpet_id : string;
  quantity : Z;
  price_usd : Q
}.

Record payload := {
  p_carpet_id : option string;
  p_quantity : option Z;
  p_price_usd : option Q
}.

(** [quantity] defaults to 1; a quantity that is given must be at least 1. *)
Definition validate (p : payload) : validated t :=
  carpet_id ← required "carpet_id" (p_carpet_id p);
  quantity ← optional (ge_int "quantity" 1) (p_quantity p);
  price_usd ← required "price_usd" (p_price_usd p);
  mret {| carpet_id := carpet_id;
          quantity := default 1%Z quantity;
          price_usd := price_usd |}.

(** A nested model serialises to a nested dictionary. *)
Definition dump (i : t) : value :=
  VDict [ ("carpet_id", VStr (carpet_id i));
          ("quantity", VInt (quantity i));
          ("price_usd", VFloat (price_usd i)) ].

End OrderItem.

(** *** [schemas.Order] *)

Module Order.

Record t := {
  customer_name : string;
  customer_email : string;
  customer_phone : option string;
  shipping_address : string;
  items : list OrderItem.t;
  subtotal_usd : Q;
  upsell_ids : list string;
  notes : option string
}.

Record payload := {
  p_customer_name : option string;
  p_customer_email : option string;
  p_customer_phone : option string;
  p_shipping_address : option string;
  p_items : option (list OrderItem.payload);
  p_subtotal_usd : option Q;
  p_upsell_ids : option (list string);
  p_notes : option string
}.

(** [items: List[OrderItem]]: every element is validated; the list has no
    length constraint. *)
Fixpoint validate_items (l : list OrderItem.payload)
  : validated (list OrderItem.t) :=
  match l with
  | [] => mret []
  | p :: l' =>
      i ← OrderItem.validate p;
      rest ← validate_items l';
      mret (i :: rest)
  end.

Definition validate (p : payload) : validated t :=
  customer_name ← required "customer_name" (p_customer_name p);
  customer_email ← required "customer_email" (p_customer_email p);
  shipping_address ← required "shipping_address" (p_shipping_address p);
  items ← required "items" (p_items p) ≫= validate_items;
  subtotal_usd ← required "subtotal_usd" (p_subtotal_usd p);
  mret {| customer_name := customer_name;
          customer_email := customer_email;
          customer_phone := p_customer_phone p;
          shipping_address := shipping_address;
          items := items;
          subtotal_usd := subtotal_usd;
          upsell_ids := default [] (p_upsell_ids p);
          notes := p_notes p |}.

#[global] Instance dump : BaseModel t := λ o,
  <["customer_name" := VStr (customer_name o)]> $
  <["customer_email" := VStr (customer_email o)]> $
  <["customer_phone" := dump_opt VStr (customer_phone o)]> $
  <["shipping_address" := VStr (shipping_address o)]> $
  <["items" := VList (OrderItem.dump <$> items o)]> $
  <["subtotal_usd" := VFloat (subtotal_usd o)]> $
  <["upsell_ids" := dump_strs (upsell_ids o)]> $
  <["notes" := dump_opt VStr (notes o)]> ∅.

End Order.

(** *** [main.CatalogQuery] *)

Module CatalogQuery.

Record t := {
  region : option string;
  style : option string;
  max_price : option Q;
  featured_only : bool
}.

Record payload := {
  p_region : option string;
  p_style : option string;
  p_max_price : option Q;
  p_featured_only : option bool
}.

Definition validate (p : payload) : validated t :=
  mret {| region := p_region p;
          style := p_style p;
          max_price := p_max_price p;
          featured_only := default false (p_featured_only p) |}.

End CatalogQuery.

(** ** The document store

    The store is the driver's database object: named collections of
    documents, each document under the identifier the store gave it.  The
    record also carries what the environment decides for the driver: which
    calls fail, and which identifier a call generates.  Every call issued
    is logged, whether it fails or not. *)

Inductive StoreOp :=
| InsertOne (collection : string)
| Find (collection : string)
| FindOne (collection : string)
| CountDocuments (collection : string)
| ListCollectionNames.

Record StoredDoc := {
  doc_id : ObjectId;
  doc_fields : document
}.

(** The dictionary the driver hands out for a stored document. *)
Definition as_dict (sd : StoredDoc) : document :=
  <["_id" := VOid (doc_id sd)]> (doc_fields sd).

Record Database := {
  db_name : option string;
  db_collections : gmap string (list StoredDoc);
  db_calls : list StoreOp;
  db_fault : nat → option string;
  db_new_oid : nat → ObjectId
}.

Inductive exn :=
| HTTPException (status_code : nat) (detail : string)
| TypeError (msg : string)
| AttributeError (msg : string)
| InvalidId (msg : string)
| PyMongoError (msg : string)
| DuplicateKeyError (msg : string)
| StoreError (msg : string).

(** [str(e)] *)
Definition str_exn (e : exn) : string :=
  match e with
  | HTTPException status_code detail => pretty status_code ++ ": " ++ detail
  | TypeError msg | AttributeError msg | InvalidId msg | PyMongoError msg
  | DuplicateKeyError msg | StoreError msg => msg
  end.

Inductive outcome (A : Type) :=
| Return (x : A)
| Raise (e : exn).
Arguments Return {A} x.
Arguments Raise {A} e.

(** The documents of a collection; a collection never written to is
    empty. *)
Definition collection (name : string) (d : Database) : list StoredDoc :=
  default [] (db_collections d !! name).

(** Issue one driver call: log it, and fail if the environment says so.
    [run] gets the position of the call in the log. *)
Definition call {A} (op : StoreOp)
    (run : nat → Database → outcome A * Database)
    (d : Database) : outcome A * Database :=
  let n := length (db_calls d) in
  let d' := {| db_name := db_name d;
               db_collections := db_collections d;
               db_calls := db_calls d ++ [op];
               db_fault := db_fault d;
               db_new_oid := db_new_oid d |} in
  match db_fault d n with
  | Some msg => (Raise (PyMongoError msg), d')
  | None => run n d'
  end.

(** [db[name].insert_one(doc)]: the store gives the document a new
    identifier, and refuses an identifier the collection already holds. *)
Definition insert_one (name : string) (doc : document)
  : Database → outcome ObjectId * Database :=
  call (InsertOne name) (λ n d,
    let oid := db_new_oid d n in
    let docs := collection name d in
    if bool_decide (oid ∈ doc_id <$> docs)
    then (Raise (DuplicateKeyError "E11000 duplicate key error"), d)
    else (Return oid,
          {| db_name := db_name d;
             db_collections :=
               <[name := (docs ++ [{| doc_id := oid; doc_fields := doc |}])%list]>
                 (db_collections d);
             db_calls := db_calls d;
             db_fault := db_fault d;
             db_new_oid := db_new_oid d |})).

(** [list(db[name].find(filt).limit(limit))], in the order of the store. *)
Definition find (name : string) (filt : gmap string cond) (limit : nat)
  : Database → outcome (list StoredDoc) * Database :=
  call (Find name) (λ _ d,
    (Return (take limit
               (filter (λ sd, matches filt (as_dict sd) = true)
                       (collection name d))), d)).

(** [db[name].find_one(filt)] *)
Definition find_one (name : string) (filt : gmap string cond)
  : Database → outcome (option StoredDoc) * Database :=
  call (FindOne name) (λ _ d,
    (Return (head (filter (λ sd, matches filt (as_dict sd) = true)
                          (collection name d))), d)).

(** [db[name].count_documents(filt)] *)
Definition count_documents (name : string) (filt : gmap string cond)
  : Database → outcome nat * Database :=
  call (CountDocuments name) (λ _ d,
    (Return (length (filter (λ sd, matches filt (as_dict sd) = true)
                            (collection name d))), d)).

(** [db.list_collection_names()] *)
Definition list_collection_names
  : Database → outcome (list string) * Database :=
  call ListCollectionNames (λ _ d,
    (Return (fst <$> map_to_list (db_collections d)), d)).

(** ** The state of the process and the handler monad

    A handler reads the module-level [db] of [database.py] and the process
    environment; it returns a value or raises.  [database.py] is not among
    the sources: by spec 5 and 6, [db] is the connection opened once when
    the process starts, and it may be missing ([None]). *)

Record World := {
  db : option Database;
  environ : gmap string string
}.

Definition M (A : Type) : Type := World → outcome A * World.

#[global] Instance M_ret : MRet M := λ A x w, (Return x, w).
#[global] Instance M_bind : MBind M := λ A B f m w,
  match m w with
  | (Return x, w') => f x w'
  | (Raise e, w') => (Raise e, w')
  end.

Definition raise {A} (e : exn) : M A := λ w, (Raise e, w).

(** [try: body except Exception as e: handler(e)] *)
Definition try_except {A} (body : M A) (handler : exn → M A) : M A := λ w,
  match body w with
  | (Return x, w') => (Return x, w')
  | (Raise e, w') => handler e w'
  end.

(** [for x in l: body(x)] *)
Fixpoint for_each {A} (l : list A) (body : A → M unit) : M unit :=
  match l with
  | [] => mret ()
  | x :: l' => body x ;; for_each l' body
  end.

(** Run a driver call on [db]; [on_none] is what using [db] raises when it
    is [None]. *)
Definition on_db {A} (on_none : exn)
    (run : Database → outcome A * Database) : M A := λ w,
  match db w with
  | None => (Raise on_none, w)
  | Some d =>
      let '(r, d') := run d in
      (r, {| db := Some d'; environ := environ w |})
  end.

Definition not_subscriptable : exn :=
  TypeError "'NoneType' object is not subscriptable".

(** [db[name]]: the collection handle, or a [TypeError] when [db] is
    [None]. *)
Definition db_getitem (name : string) : M string := λ w,
  match db w with
  | None => (Raise not_subscriptable, w)
  | Some _ => (Return name, w)
  end.

(** The [InvalidId] error of [ObjectId(s)]. *)
Definition invalid_id (s : string) : exn :=
  InvalidId ("'" ++ s ++ "' is not a valid ObjectId, it must be"
             ++ " a 12-byte input or a 24-character hex string").

(** [ObjectId(s)] *)
Definition ObjectId_new (s : string) : M ObjectId :=
  match ObjectId_of_str s with
  | Some o => mret o
  | None => raise (invalid_id s)
  end.

(** [os.getenv(k)] *)
Definition getenv (k : string) : M (option string) := λ w,
  (Return (environ w !! k), w).

(** ** The helpers of [database.py] *)

Definition not_available : exn := StoreError "Database not available".

(** Modelled from the spec: [database.create_document] is not among the
    sources.  Spec 4.1, insert: it serialises the entity's fields to a
    document, persists it as one new document of the named collection, and
    returns the new identifier as a string; it fails with a store error
    when the connection is unavailable. *)
Definition create_document `{BaseModel A} (collection_name : string)
    (data : A) : M string :=
  oid ← on_db not_available (insert_one collection_name (model_dump data));
  mret (str_oid oid).

(** Modelled from the spec: [database.get_documents] is not among the
    sources.  Spec 4.1, find: it returns up to [limit] documents of the
    collection that match the filter, in the order of the store. *)
Definition get_documents (collection_name : string)
    (filter_dict : gmap string cond) (limit : nat) : M (list StoredDoc) :=
  on_db not_available (find collection_name filter_dict limit).

(** ** The request handlers of [main.py] *)

(** The body of a response: a JSON object or an array of objects. *)
Inductive Body :=
| JObject (d : document)
| JArray (l : list document).

Definition renderable_body (b : Body) : bool :=
  match b with
  | JObject d => renderable_document d
  | JArray l => forallb renderable_document l
  end.

(** The truth value of an optional string: [None] and the empty string are
    false. *)
Definition truthy (s : option string) : bool :=
  match s with
  | Some (String _ _) => true
  | _ => false
  end.

(** [c["_id"] = str(c.get("_id"))] on a document the driver returned, whose
    ["_id"] is the [ObjectId] the store gave it. *)
Definition stringify_id (sd : StoredDoc) : document :=
  <["_id" := VStr (str_oid (doc_id sd))]> (as_dict sd).

Definition read_root : M Body :=
  mret (JObject {[ "message" := VStr "Persian Carpets Backend Running" ]}).

(** The [AttributeError] of a method call on [None]; [test_database] calls
    the driver only where [db] is not [None]. *)
Definition no_attribute : exn :=
  AttributeError
    "'NoneType' object has no attribute 'list_collection_names'".

(** [test_database].  The statements of the outer [try] that are not inside
    the inner one raise nothing, so the outer handler never runs; the inner
    handler keeps the fields set before the failing call. *)
Definition test_database : M Body :=
  let response : document :=
    <["backend" := VStr "✅ Running"]> $
    <["database" := VStr "❌ Not Available"]> $
    <["database_url" := VNone]> $
    <["database_name" := VNone]> $
    <["connection_status" := VStr "Not Connected"]> $
    <["collections" := VList []]> ∅ in
  response ← (λ w,
    match db w with
    | Some d =>
        (let response := <["database" := VStr "✅ Available"]> response in
         url ← getenv "DATABASE_URL";
         let response :=
           <["database_url" :=
               VStr (if truthy url then "✅ Set" else "❌ Not Set")]> response in
         let response :=
           <["database_name" :=
               VStr (default "✅ Connected" (db_name d))]> response in
         let response :=
           <["connection_status" := VStr "Connected"]> response in
         try_except
           (collections ← on_db no_attribute list_collection_names;
            let response :=
              <["collections" := dump_strs (take 10 collections)]> response in
            mret (<["database" := VStr "✅ Connected & Working"]> response))
           (λ e,
            mret (<["database" :=
                      VStr ("⚠️  Connected but Error: "
                            ++ take_chars 50 (str_exn e))]> response)))
          w
    | None =>
        (Return (<["database" := VStr "⚠️  Available but not initialized"]>
                   response), w)
    end);
  mret (JObject response).

Definition create_carpet (carpet : Carpet.t) : M Body :=
  try_except
    (carpet_id ← create_document "carpet" carpet;
     mret (JObject {[ "id" := VStr carpet_id ]}))
    (λ e, raise (HTTPException 500 (str_exn e))).

(** The filter [query_carpets] builds (lines 72 to 80). *)
Definition query_filter (q : CatalogQuery.t) : gmap string cond :=
  let filt : gmap string cond := ∅ in
  let filt :=
    if truthy (CatalogQuery.region q)
    then <["region" := CEq (VStr (default "" (CatalogQuery.region q)))]> filt
    else filt in
  let filt :=
    if truthy (CatalogQuery.style q)
    then <["style" := CEq (VStr (default "" (CatalogQuery.style q)))]> filt
    else filt in
  let filt :=
    match CatalogQuery.max_price q with
    | Some max_price => <["price_usd" := CLte max_price]> filt
    | None => filt
    end in
  let filt :=
    if CatalogQuery.featured_only q
    then <["is_featured" := CEq (VBool true)]> filt
    else filt in
  filt.

Definition query_carpets (q : CatalogQuery.t) : M Body :=
  try_except
    (let filt := query_filter q in
     carpets ← get_documents "carpet" filt 50;
     mret (JArray (stringify_id <$> carpets)))
    (λ e, raise (HTTPException 500 (str_exn e))).

Definition get_carpet (carpet_id : string) : M Body :=
  try_except
    (coll ← db_getitem "carpet";
     oid ← ObjectId_new carpet_id;
     doc ← on_db not_subscriptable
                 (find_one coll {[ "_id" := CEq (VOid oid) ]});
     match doc with
     | None => raise (HTTPException 404 "Carpet not found")
     | Some doc => mret (JObject (stringify_id doc))
     end)
    (λ e, raise (HTTPException 400 (str_exn e))).

Definition create_order (order : Order.t) : M Body :=
  try_except
    (order_id ← create_document "order" order;
     mret (JObject {[ "id" := VStr order_id ]}))
    (λ e, raise (HTTPException 500 (str_exn e))).

Definition create_review (review : Review.t) : M Body :=
  try_except
    (review_id ← create_document "review" review;
     mret (JObject {[ "id" := VStr review_id ]}))
    (λ e, raise (HTTPException 500 (str_exn e))).

(** The sample carpets of [seed_demo_data]. *)
Definition sample_isfahan : Carpet.t :=
  {| Carpet.title := "Isfahan Silk Medallion";
     Carpet.description :=
       Some "Fine silk-on-silk with central medallion and arabesque borders.";
     Carpet.region := "Isfahan";
     Carpet.style := "medallion";
     Carpet.size_cm := "200 x 300";
     Carpet.materials := ["silk"];
     Carpet.knot_density_kpsi := Some 650%Z;
     Carpet.age_years := Some 15%Z;
     Carpet.price_usd := 48000%Q;
     Carpet.images :=
       ["https://images.unsplash.com/photo-1545239351-1141bd82e8a6?q=80&w=1600&auto=format&fit=crop"];
     Carpet.colors := ["crimson"; "ivory"; "navy"];
     Carpet.rarity_score := Some 0.92%Q;
     Carpet.is_featured := true;
     Carpet.in_stock := true |}.

Definition sample_tabriz : Carpet.t :=
  {| Carpet.title := "Tabriz Garden of Paradise";
     Carpet.description :=
       Some "Wool and silk blend with garden panels and cypress trees.";
     Carpet.region := "Tabriz";
     Carpet.style := "garden";
     Carpet.size_cm := "240 x 340";
     Carpet.materials := ["wool"; "silk"];
     Carpet.knot_density_kpsi := Some 400%Z;
     Carpet.age_years := Some 25%Z;
     Carpet.price_usd := 28000%Q;
     Carpet.images :=
       ["https://images.unsplash.com/photo-1618220179428-22790b461013?q=80&w=1600&auto=format&fit=crop"];
     Carpet.colors := ["emerald"; "gold"; "brick"];
     Carpet.rarity_score := Some 0.8%Q;
     Carpet.is_featured := true;
     Carpet.in_stock := true |}.

Definition sample_kashan : Carpet.t :=
  {| Carpet.title := "Kashan Royal Court";
     Carpet.description :=
       Some "Antique wool masterpiece with courtly motifs and deep palette.";
     Carpet.region := "Kashan";
     Carpet.style := "pictorial";
     Carpet.size_cm := "180 x 270";
     Carpet.materials := ["wool"];
     Carpet.knot_density_kpsi := Some 300%Z;
     Carpet.age_years := Some 70%Z;
     Carpet.price_usd := 36000%Q;
     Carpet.images :=
       ["https://images.unsplash.com/photo-1545239350-48bf079fb38e?q=80&w=1600&auto=format&fit=crop"];
     Carpet.colors := ["ruby"; "indigo"; "beige"];
     Carpet.rarity_score := Some 0.86%Q;
     Carpet.is_featured := false;
     Carpet.in_stock := true |}.

Definition samples : list Carpet.t :=
  [sample_isfahan; sample_tabriz; sample_kashan].

Definition seed_demo_data : M Body :=
  try_except
    (coll ← db_getitem "carpet";
     n ← on_db not_subscriptable (count_documents coll ∅);
     if (0 <? n)%nat
     then mret (JObject (<["status" := VStr "ok"]>
                           {[ "message" := VStr "Catalog already seeded" ]}))
     else
       for_each samples (λ s, create_document "carpet" s ;; mret ()) ;;
       mret (JObject (<["status" := VStr "ok"]>
                        {[ "message" := VStr "Seeded sample carpets" ]})))
    (λ e, raise (HTTPException 500 (str_exn e))).

(** ** Requests and responses

    The framework parses the body of a request into the model the handler
    declares and calls the handler only with a valid model; a body that
    fails validation is answered with status 422 and the handler does not
    run.  A value the handler returns is rendered as JSON into a 200
    response; when it cannot be rendered the request ends with status 500.
    An [HTTPException] the handler raises is a response of that status.

    A body is given with each field of its declared type and with finite
    numbers; for such a body the report of a validation failure, which
    repeats the rejected input, can always be rendered. *)

Inductive Request :=
| GET_root
| GET_test
| POST_carpets (body : Carpet.payload)
| POST_carpets_query (body : CatalogQuery.payload)
| GET_carpet (carpet_id : string)
| POST_orders (body : Order.payload)
| POST_reviews (body : Review.payload)
| POST_seed.

Inductive Response :=
| OK (content : Body)
| Error (status_code : nat) (detail : string)
| Unprocessable (e : ValidationError).

Definition status (r : Response) : nat :=
  match r with
  | OK _ => 200
  | Error status_code _ => status_code
  | Unprocessable _ => 422
  end.

Definition respond (handler : M Body) (w : World) : Response * World :=
  match handler w with
  | (Return content, w') =>
      if renderable_body content
      then (OK content, w')
      else (Error 500 "Internal Server Error", w')
  | (Raise (HTTPException status_code detail), w') =>
      (Error status_code detail, w')
  | (Raise _, w') => (Error 500 "Internal Server Error", w')
  end.

Definition with_body {P A} (validate : P → validated A)
    (handler : A → M Body) (body : P) (w : World) : Response * World :=
  match validate body with
  | inl e => (Unprocessable e, w)
  | inr model => respond (handler model) w
  end.

Definition serve (r : Request) : World → Response * World :=
  match r with
  | GET_root => respond read_root
  | GET_test => respond test_database
  | POST_carpets body => with_body Carpet.validate create_carpet body
  | POST_carpets_query body =>
      with_body CatalogQuery.validate query_carpets body
  | GET_carpet carpet_id => respond (get_carpet carpet_id)
  | POST_orders body => with_body Order.validate create_order body
  | POST_reviews body => with_body Review.validate create_review body
  | POST_seed => respond seed_demo_data
  end.

(** The driver calls a world has seen, and those a request adds. *)
Definition calls_of (w : World) : list StoreOp :=
  match db w with
  | Some d => db_calls d
  | None => []
  end.

Definition store_calls (r : Request) (w : World) : list StoreOp :=
  drop (length (calls_of w)) (calls_of (serve r w).2).

(** The documents of a collection of the world's store. *)
Definition documents (name : string) (w : World) : list StoredDoc :=
  match db w with
  | Some d => collection name d
  | None => []
  end.

(** What the environment holds for the [k]-th driver call from now: whether
    it fails, and the identifier it would generate. *)
Definition upcoming_fault (d : Database) (k : nat) : option string :=
  db_fault d (length (db_calls d) + k).

Definition upcoming_oid (d : Database) (k : nat) : ObjectId :=
  db_new_oid d (length (db_calls d) + k).

(** ** A concrete store for the examples

    An empty store that never fails and numbers its identifiers by the
    position of the call, and the same store after one seeding. *)

Definition digit (n : nat) : hexdigit :=
  match n with
  | 0 => X0 | 1 => X1 | 2 => X2 | 3 => X3 | 4 => X4 | 5 => X5 | 6 => X6
  | 7 => X7 | 8 => X8 | 9 => X9 | 10 => Xa | 11 => Xb | 12 => Xc
  | 13 => Xd | 14 => Xe | _ => Xf
  end.

Fixpoint oid_digits (k n : nat) : ObjectId :=
  match k with
  | 0 => []
  | S k' => (oid_digits k' (n / 16) ++ [digit (n mod 16)])%list
  end.

Definition demo_db : Database :=
  {| db_name := Some "carpets";
     db_collections := ∅;
     db_calls := [];
     db_fault := λ _, None;
     db_new_oid := oid_digits 24 |}.

Definition demo : World := {| db := Some demo_db; environ := ∅ |}.

Definition seeded : World := (serve POST_seed demo).2.

(** A store whose every call fails, and a process without a store. *)
Definition failing : World :=
  {| db := Some {| db_name := None;
                   db_collections := ∅;
                   db_calls := [];
                   db_fault := λ _, Some "connection refused";
                   db_new_oid := oid_digits 24 |};
     environ := ∅ |}.

Definition unavailable : World := {| db := None; environ := ∅ |}.

(** ** Notions the properties are stated with *)

Section query_notions.

Import CatalogQuery.

(** A text constraint counts as provided when it is there and not empty. *)
Definition provided (o : option string) : option string :=
  if truthy o then o else None.

(** What the constraints of a query ask of a carpet. *)
Definition satisfies (q : CatalogQuery.t) (c : document) : Prop :=
  (∀ r, provided (region q) = Some r → c !! "region" = Some (VStr r)) ∧
  (∀ s, provided (style q) = Some s → c !! "style" = Some (VStr s)) ∧
  (∀ m, max_price q = Some m →
        ∃ x, number (c !! "price_usd") = Some x ∧ float_le x m) ∧
  (featured_only q = true → c !! "is_featured" = Some (VBool true)).

(** The carpets of the store a filter selects, capped and shaped as
    [query_carpets] returns them. *)
Definition selected (filt : gmap string cond) (w : World) : list document :=
  stringify_id <$>
    take 50 (filter (λ sd, matches filt (as_dict sd) = true)
                    (documents "carpet" w)).

(** A query that provides the empty string as its region. *)
Definition empty_region_query : CatalogQuery.t :=
  {| region := Some ""; style := None;
     max_price := None; featured_only := false |}.

(** A query for the featured carpets of at most 30000 dollars. *)
Definition featured_query : CatalogQuery.t :=
  {| region := None; style := None;
     max_price := Some 30000%Q; featured_only := true |}.

End query_notions.

Section store_notions.

(** The store after a successful [insert_one]. *)
Definition inserted (name : string) (doc : document) (d : Database)
  : Database :=
  {| db_name := db_name d;
     db_collections :=
       <[name := (collection name d
                  ++ [{| doc_id := upcoming_oid d 0; doc_fields := doc |}])%list]>
         (db_collections d);
     db_calls := db_calls d ++ [InsertOne name];
     db_fault := db_fault d;
     db_new_oid := db_new_oid d |}.

(** The document a lookup by identifier finds. *)
Definition lookup_id (o : ObjectId) (docs : list StoredDoc)
  : option StoredDoc :=
  head (filter (λ sd, matches {[ "_id" := CEq (VOid o) ]} (as_dict sd) = true)
               docs).

(** The store after the [count_documents] of the seed. *)
Definition counted (d : Database) : Database :=
  {| db_name := db_name d;
     db_collections := db_collections d;
     db_calls := db_calls d ++ [CountDocuments "carpet"];
     db_fault := db_fault d;
     db_new_oid := db_new_oid d |}.

Definition already_seeded : Body :=
  JObject (<["status" := VStr "ok"]>
             {[ "message" := VStr "Catalog already seeded" ]}).

Definition seeded_now : Body :=
  JObject (<["status" := VStr "ok"]>
             {[ "message" := VStr "Seeded sample carpets" ]}).

(** The store after a seed that found the catalog empty. *)
Definition with_samples (d : Database) : Database :=
  inserted "carpet" (model_dump sample_kashan)
    (inserted "carpet" (model_dump sample_tabriz)
       (inserted "carpet" (model_dump sample_isfahan) (counted d))).

(** One call if there is a store, none if there is not. *)
Definition if_store (w : World) (op : StoreOp) : list StoreOp :=
  match db w with
  | Some _ => [op]
  | None => []
  end.

(** The calls a request may issue, in order. *)
Definition budget (r : Request) : list StoreOp :=
  match r with
  | GET_root => []
  | GET_test => [ListCollectionNames]
  | POST_carpets _ => [InsertOne "carpet"]
  | POST_carpets_query _ => [Find "carpet"]
  | GET_carpet _ => [FindOne "carpet"]
  | POST_orders _ => [InsertOne "order"]
  | POST_reviews _ => [InsertOne "review"]
  | POST_seed =>
      [CountDocuments "carpet"; InsertOne "carpet"; InsertOne "carpet";
       InsertOne "carpet"]
  end.

(** What a handler adds to the log of driver calls. *)
Definition adds (handler : M Body) (w : World) (l : list StoreOp) : Prop :=
  calls_of (handler w).2 = (calls_of w ++ l)%list.

(** A payload with a rating outside 1 to 5, a rarity score outside 0 to 1,
    or an order item with a quantity below 1. *)
Definition out_of_range (r : Request) : Prop :=
  match r with
  | POST_reviews p =>
      ∃ x, Review.p_rating p = Some x ∧ (x < 1 ∨ 5 < x)%Z
  | POST_carpets p =>
      ∃ x, Carpet.p_rarity_score p = Some x ∧ (x < 0 ∨ 1 < x)%Q
  | POST_orders p =>
      ∃ items i x, Order.p_items p = Some items ∧ i ∈ items ∧
                   OrderItem.p_quantity i = Some x ∧ (x < 1)%Z
  | _ => False
  end.

End store_notions.

Section example_payloads.

(** The payload of the example of the spec, and the carpet it validates
    to. *)
Definition example_payload : Carpet.payload :=
  {| Carpet.p_title := Some "X";
     Carpet.p_description := None;
     Carpet.p_region := Some "Tabriz";
     Carpet.p_style := Some "garden";
     Carpet.p_size_cm := Some "100x100";
     Carpet.p_materials := None;
     Carpet.p_knot_density_kpsi := None;
     Carpet.p_age_years := None;
     Carpet.p_price_usd := Some 100%Q;
     Carpet.p_images := None;
     Carpet.p_colors := None;
     Carpet.p_rarity_score := None;
     Carpet.p_is_featured := None;
     Carpet.p_in_stock := None |}.

Definition example_carpet : Carpet.t :=
  {| Carpet.title := "X";
     Carpet.description := None;
     Carpet.region := "Tabriz";
     Carpet.style := "garden";
     Carpet.size_cm := "100x100";
     Carpet.materials := [];
     Carpet.knot_density_kpsi := None;
     Carpet.age_years := None;
     Carpet.price_usd := 100%Q;
     Carpet.images := [];
     Carpet.colors := [];
     Carpet.rarity_score := None;
     Carpet.is_featured := false;
     Carpet.in_stock := true |}.

(** A payload that gives every field, and the carpet it validates to. *)
Definition kerman_payload : Carpet.payload :=
  {| Carpet.p_title := Some "Kerman Vase";
     Carpet.p_description := Some "Vase carpet with a floral lattice";
     Carpet.p_region := Some "Kerman";
     Carpet.p_style := Some "vase";
     Carpet.p_size_cm := Some "200x300";
     Carpet.p_materials := Some ["wool"; "silk"];
     Carpet.p_knot_density_kpsi := Some 400%Z;
     Carpet.p_age_years := Some 90%Z;
     Carpet.p_price_usd := Some (25001 # 2)%Q;
     Carpet.p_images := Some ["kerman.jpg"];
     Carpet.p_colors := Some ["red"; "ivory"];
     Carpet.p_rarity_score := Some (1 # 2)%Q;
     Carpet.p_is_featured := Some true;
     Carpet.p_in_stock := Some false |}.

Definition kerman_carpet : Carpet.t :=
  {| Carpet.title := "Kerman Vase";
     Carpet.description := Some "Vase carpet with a floral lattice";
     Carpet.region := "Kerman";
     Carpet.style := "vase";
     Carpet.size_cm := "200x300";
     Carpet.materials := ["wool"; "silk"];
     Carpet.knot_density_kpsi := Some 400%Z;
     Carpet.age_years := Some 90%Z;
     Carpet.price_usd := (25001 # 2)%Q;
     Carpet.images := ["kerman.jpg"];
     Carpet.colors := ["red"; "ivory"];
     Carpet.rarity_score := Some (1 # 2)%Q;
     Carpet.is_featured := true;
     Carpet.in_stock := false |}.

(** The example payload with a negative price. *)
Definition negative_price_payload : Carpet.payload :=
  {| Carpet.p_title := Some "X";
     Carpet.p_description := None;
     Carpet.p_region := Some "Tabriz";
     Carpet.p_style := Some "garden";
     Carpet.p_size_cm := Some "100x100";
     Carpet.p_materials := None;
     Carpet.p_knot_density_kpsi := None;
     Carpet.p_age_years := None;
     Carpet.p_price_usd := Some (-1)%Q;
     Carpet.p_images := None;
     Carpet.p_colors := None;
     Carpet.p_rarity_score := None;
     Carpet.p_is_featured := None;
     Carpet.p_in_stock := None |}.

(** A review with rating 6. *)
Definition review_rated_six : Review.payload :=
  {| Review.p_carpet_id := Some "000000000000000000000001";
     Review.p_name := Some "Ada";
     Review.p_rating := Some 6%Z;
     Review.p_comment := None |}.

End example_payloads.

Section carpet_notions.

Import Carpet.

(** A payload, and a carpet, with the two fields replaced. *)
Definition payload_with (knot age : option Z) (p : payload) : payload :=
  {| p_title := p_title p;
     p_description := p_description p;
     p_region := p_region p;
     p_style := p_style p;
     p_size_cm := p_size_cm p;
     p_materials := p_materials p;
     p_knot_density_kpsi := knot;
     p_age_years := age;
     p_price_usd := p_price_usd p;
     p_images := p_images p;
     p_colors := p_colors p;
     p_rarity_score := p_rarity_score p;
     p_is_featured := p_is_featured p;
     p_in_stock := p_in_stock p |}.

Definition carpet_with (knot age : option Z) (c : t) : t :=
  {| title := title c;
     description := description c;
     region := region c;
     style := style c;
     size_cm := size_cm c;
     materials := materials c;
     knot_density_kpsi := knot;
     age_years := age;
     price_usd := price_usd c;
     images := images c;
     colors := colors c;
     rarity_score := rarity_score c;
     is_featured := is_featured c;
     in_stock := in_stock c |}.

(** The example payload with a negative age and a negative knot density. *)
Definition negative_payload : payload :=
  payload_with (Some (-1)%Z) (Some (-5)%Z) example_payload.

End carpet_notions.

Section order_notions.

Import Order.

(** An order without items. *)
Definition empty_order : payload :=
  {| p_customer_name := Some "Ada";
     p_customer_email := Some "ada@example.org";
     p_customer_phone := None;
     p_shipping_address := Some "1 Main Street";
     p_items := Some [];
     p_subtotal_usd := Some 0%Q;
     p_upsell_ids := None;
     p_notes := None |}.

End order_notions.

Section store_invariants.

(** The identifiers of every collection are pairwise distinct. *)
Definition unique_ids (w : World) : Prop :=
  ∀ name, NoDup (doc_id <$> documents name w).

(** The constraints of the schemas, on the models. *)
Definition valid_carpet (c : Carpet.t) : Prop :=
  (0 <= Carpet.price_usd c)%Q ∧
  ∀ x, Carpet.rarity_score c = Some x → (0 <= x)%Q ∧ (x <= 1)%Q.

Definition valid_review (r : Review.t) : Prop :=
  (1 ≤ Review.rating r ≤ 5)%Z.

Definition valid_order (o : Order.t) : Prop :=
  Forall (λ i, (1 ≤ OrderItem.quantity i)%Z) (Order.items o).

(** Every stored carpet, review and order is the serialisation of a model
    that meets the constraints of its schema. *)
Definition valid_store (w : World) : Prop :=
  (∀ sd, sd ∈ documents "carpet" w →
         ∃ c, doc_fields sd = model_dump c ∧ valid_carpet c) ∧
  (∀ sd, sd ∈ documents "review" w →
         ∃ r, doc_fields sd = model_dump r ∧ valid_review r) ∧
  (∀ sd, sd ∈ documents "order" w →
         ∃ o, doc_fields sd = model_dump o ∧ valid_order o).

(** The collection and the document a create request stores, when its body
    is valid. *)
Definition created (r : Request) : option (string * document) :=
  match r with
  | POST_carpets body =>
      match Carpet.validate body with
      | inr carpet => Some ("carpet", model_dump carpet)
      | inl _ => None
      end
  | POST_orders body =>
      match Order.validate body with
      | inr order => Some ("order", model_dump order)
      | inl _ => None
      end
  | POST_reviews body =>
      match Review.validate body with
      | inr review => Some ("review", model_dump review)
      | inl _ => None
      end
  | _ => None
  end.

(** The store after a call that only reads. *)
Definition logged (op : StoreOp) (d : Database) : Database :=
  {| db_name := db_name d;
     db_collections := db_collections d;
     db_calls := (db_calls d ++ [op])%list;
     db_fault := db_fault d;
     db_new_oid := db_new_oid d |}.

(** The requests that only read. *)
Definition read_only (r : Request) : bool :=
  match r with
  | GET_root | GET_test | POST_carpets_query _ | GET_carpet _ => true
  | _ => false
  end.

(** What a query asks of a carpet, on the model. *)
Definition carpet_satisfies (q : CatalogQuery.t) (c : Carpet.t) : Prop :=
  (∀ r, provided (CatalogQuery.region q) = Some r → Carpet.region c = r) ∧
  (∀ s, provided (CatalogQuery.style q) = Some s → Carpet.style c = s) ∧
  (∀ m, CatalogQuery.max_price q = Some m → (Carpet.price_usd c <= m)%Q) ∧
  (CatalogQuery.featured_only q = true → Carpet.is_featured c = true).

(** Every stored carpet is the serialisation of a model. *)
Definition stored_models (w : World) : Prop :=
  ∀ sd, sd ∈ documents "carpet" w →
        ∃ c : Carpet.t, doc_fields sd = model_dump c.

(** A store whose one carpet has an infinite price: the store takes any
    document, and a double may be infinite. *)
Definition priceless_db : Database :=
  {| db_name := Some "carpets";
     db_collections :=
       {[ "carpet" :=
            [ {| doc_id := oid_digits 24 1;
                 doc_fields := <["price_usd" := VFloat PosInf]>
                                 (model_dump sample_isfahan) |} ] ]};
     db_calls := [];
     db_fault := λ _, None;
     db_new_oid := oid_digits 24 |}.

Definition priceless : World :=
  {| db := Some priceless_db; environ := ∅ |}.

(** A store that answers its first two calls and fails the third. *)
Definition flaky : World :=
  {| db := Some {| db_name := Some "carpets";
                   db_collections := ∅;
                   db_calls := [];
                   db_fault := λ n, if (n =? 2)%nat
                                    then Some "connection reset"
                                    else None;
                   db_new_oid := oid_digits 24 |};
     environ := ∅ |}.

(** A review of a carpet that no store holds. *)
Definition review_of_nothing : Review.payload :=
  {| Review.p_carpet_id := Some "no such carpet";
     Review.p_name := Some "Ada";
     Review.p_rating := Some 5%Z;
     Review.p_comment := Some "Lovely" |}.

End store_invariants.

(** * Properties *)

(** ** Identifiers *)

Section identifiers.

Lemma hex_of_hex_char (h : hexdigit) : hex_of_char (hex_char h) = Some h.
Proof. by destruct h. Qed.

Lemma is_space_hex_char (h : hexdigit) : is_space (hex_char h) = false.
Proof. by destruct h. Qed.

Lemma fromhex_hex_char (n : nat) (o : ObjectId) :
  length o = 2 * n → fromhex (hex_char <$> o) = Some o.
Proof.
  revert o. induction n as [|n IH]; intros [|h [|h' o]] Hlen;
    cbn in Hlen; try lia; [done|].
  cbn [fmap list_fmap fromhex].
  rewrite is_space_hex_char, !hex_of_hex_char.
  change (list_fmap _ _ hex_char o) with (hex_char <$> o).
  rewrite IH by lia. done.
Qed.

Lemma length_string_of_list_ascii (l : list ascii) :
  String.length (string_of_list_ascii l) = length l.
Proof. induction l as [|a l IH]; [done|]. cbn. by rewrite IH. Qed.

(** Parsing the string of a twelve-byte identifier gives it back. *)
Lemma ObjectId_of_str_oid (o : ObjectId) :
  wf_oid o → ObjectId_of_str (str_oid o) = Some o.
Proof.
  intros Hwf. unfold ObjectId_of_str, str_oid.
  rewrite length_string_of_list_ascii, length_fmap.
  rewrite decide_True by exact Hwf.
  rewrite list_ascii_of_string_of_list_ascii.
  by apply (fromhex_hex_char 12).
Qed.

Lemma length_oid_digits (k n : nat) : length (oid_digits k n) = k.
Proof.
  revert n. induction k as [|k IH]; intros n; [done|].
  cbn. rewrite length_app, IH. cbn. lia.
Qed.

End identifiers.

(** ** Filters *)

Section filters.

Lemma float_leb_le (x : float) (m : Q) :
  float_leb x m = true ↔ float_le x m.
Proof.
  destruct x; cbn; [apply Qle_bool_iff|split; [discriminate|done]
                   |done|split; [discriminate|done]].
Qed.

Lemma value_eqb_VStr (s : string) (v : value) :
  value_eqb (VStr s) v = true → v = VStr s.
Proof.
  destruct v; cbn; try discriminate.
  intros H. apply String.eqb_eq in H. by subst.
Qed.

Lemma value_eqb_VBool (b : bool) (v : value) :
  value_eqb (VBool b) v = true → v = VBool b.
Proof.
  destruct v as [|b'| | | | | |]; cbn; try discriminate.
  by destruct b, b'.
Qed.

Lemma value_eqb_VOid (o : ObjectId) (v : value) :
  value_eqb (VOid o) v = true ↔ v = VOid o.
Proof.
  destruct v; cbn; try (split; [discriminate|congruence]).
  rewrite bool_decide_eq_true. split; congruence.
Qed.

Lemma matches_lookup (filt : gmap string cond) (d : document) :
  matches filt d = true ↔
  ∀ k c, filt !! k = Some c → cond_holds c (d !! k) = true.
Proof. unfold matches. by rewrite bool_decide_eq_true. Qed.

Lemma matches_empty (d : document) : matches ∅ d = true.
Proof. apply matches_lookup. intros k c. by rewrite lookup_empty. Qed.

(** The filter of a lookup by identifier selects the documents stored
    under that identifier. *)
Lemma matches_id (o : ObjectId) (sd : StoredDoc) :
  matches {[ "_id" := CEq (VOid o) ]} (as_dict sd) = true ↔ doc_id sd = o.
Proof.
  rewrite matches_lookup. unfold as_dict. split.
  - intros H. specialize (H "_id" (CEq (VOid o))).
    rewrite lookup_singleton_eq, lookup_insert_eq in H. cbn in H.
    specialize (H eq_refl). apply bool_decide_eq_true in H. done.
  - intros <- k c Hk. apply lookup_singleton_Some in Hk as [<- <-].
    rewrite lookup_insert_eq. cbn. by apply bool_decide_eq_true.
Qed.

Lemma filter_all {A} (P : A → Prop) `{∀ x, Decision (P x)} (l : list A) :
  (∀ x, P x) → filter P l = l.
Proof.
  intros HP. induction l as [|x l IH]; [done|].
  rewrite filter_cons_True by done. by rewrite IH.
Qed.

(** Turning the identifier into a string leaves the other fields alone. *)
Lemma stringify_id_lookup (sd : StoredDoc) (k : string) :
  k ≠ "_id" → stringify_id sd !! k = as_dict sd !! k.
Proof. intros Hk. unfold stringify_id. by rewrite lookup_insert_ne. Qed.

End filters.

(** Unfold the monad of the handlers down to functions on worlds. *)
Ltac unfold_M_beta :=
  unfold try_except, on_db, db_getitem, raise, mbind, M_bind, mret, M_ret;
  cbn beta.

Ltac unfold_M := unfold_M_beta; cbn.

Lemma db_getitem_Some (name : string) (w : World) (d : Database) :
  db w = Some d → db_getitem name w = (Return name, w).
Proof. unfold db_getitem. by intros ->. Qed.

Lemma on_db_Some {A} (on_none : exn)
    (run : Database → outcome A * Database) (w : World) (d : Database) :
  db w = Some d →
  on_db on_none run w
  = ((run d).1, {| db := Some (run d).2; environ := environ w |}).
Proof. unfold on_db. intros ->. by destruct (run d). Qed.

(** ** The catalog query *)

Section catalog_query.

Import CatalogQuery.

Lemma upcoming_fault_0 (d : Database) :
  upcoming_fault d 0 = db_fault d (length (db_calls d)).
Proof. unfold upcoming_fault. by rewrite Nat.add_0_r. Qed.

Lemma query_carpets_outcome (q : CatalogQuery.t) (w : World) :
  (query_carpets q w).1 =
  match db w with
  | None => Raise (HTTPException 500 "Database not available")
  | Some d =>
      match upcoming_fault d 0 with
      | Some msg => Raise (HTTPException 500 msg)
      | None => Return (JArray (selected (query_filter q) w))
      end
  end.
Proof.
  unfold query_carpets, get_documents, selected, documents. unfold_M.
  destruct (db w) as [d|]; [|done].
  rewrite upcoming_fault_0. unfold find, call.
  by destruct (db_fault d (length (db_calls d))).
Qed.

Lemma provided_Some (o : option string) (r : string) :
  provided o = Some r → o = Some r ∧ truthy o = true.
Proof. unfold provided. destruct (truthy o) eqn:E; [done|discriminate]. Qed.

Lemma query_filter_region (q : CatalogQuery.t) :
  query_filter q !! "region" = (λ r, CEq (VStr r)) <$> provided (region q).
Proof.
  unfold query_filter, provided.
  destruct (featured_only q), (max_price q), (truthy (style q)),
    (region q) as [[|a r]|]; by simplify_map_eq.
Qed.

Lemma query_filter_style (q : CatalogQuery.t) :
  query_filter q !! "style" = (λ s, CEq (VStr s)) <$> provided (style q).
Proof.
  unfold query_filter, provided.
  destruct (featured_only q), (max_price q), (truthy (region q)),
    (style q) as [[|a r]|]; by simplify_map_eq.
Qed.

Lemma query_filter_price (q : CatalogQuery.t) :
  query_filter q !! "price_usd" = CLte <$> max_price q.
Proof.
  unfold query_filter.
  destruct (featured_only q), (max_price q), (truthy (region q)),
    (truthy (style q)); by simplify_map_eq.
Qed.

Lemma query_filter_featured (q : CatalogQuery.t) :
  query_filter q !! "is_featured" =
  if featured_only q then Some (CEq (VBool true)) else None.
Proof.
  unfold query_filter.
  destruct (featured_only q), (max_price q), (truthy (region q)),
    (truthy (style q)); by simplify_map_eq.
Qed.

Lemma query_filter_other (q : CatalogQuery.t) (k : string) :
  k ∉ ["region"; "style"; "price_usd"; "is_featured"] →
  query_filter q !! k = None.
Proof.
  intros Hk. rewrite !not_elem_of_cons in Hk.
  destruct Hk as (? & ? & ? & ? & _).
  unfold query_filter.
  destruct (featured_only q), (max_price q), (truthy (region q)),
    (truthy (style q)); by simplify_map_eq.
Qed.

Lemma query_filter_absent (q : CatalogQuery.t) :
  provided (region q) = None → provided (style q) = None →
  max_price q = None → featured_only q = false →
  query_filter q = ∅.
Proof.
  unfold provided, query_filter. intros Hr Hs -> ->.
  destruct (truthy (region q)) eqn:Er.
  { destruct (region q) as [[|]|]; cbn in *; discriminate. }
  destruct (truthy (style q)) eqn:Es; [|done].
  destruct (style q) as [[|]|]; cbn in *; discriminate.
Qed.

(** A document the filter of a query selects satisfies the query. *)
Lemma matches_satisfies (q : CatalogQuery.t) (sd : StoredDoc) :
  matches (query_filter q) (as_dict sd) = true →
  satisfies q (stringify_id sd).
Proof.
  rewrite matches_lookup. intros H.
  repeat split.
  - intros r Hr. rewrite stringify_id_lookup by done.
    specialize (H "region" (CEq (VStr r))).
    rewrite query_filter_region, Hr in H. specialize (H eq_refl). unfold cond_holds in H.
    destruct (as_dict sd !! "region") as [v|]; [|done].
    by rewrite (value_eqb_VStr _ _ H).
  - intros s Hs. rewrite stringify_id_lookup by done.
    specialize (H "style" (CEq (VStr s))).
    rewrite query_filter_style, Hs in H. specialize (H eq_refl). unfold cond_holds in H.
    destruct (as_dict sd !! "style") as [v|]; [|done].
    by rewrite (value_eqb_VStr _ _ H).
  - intros m Hm. rewrite stringify_id_lookup by done.
    specialize (H "price_usd" (CLte m)).
    rewrite query_filter_price, Hm in H. specialize (H eq_refl). unfold cond_holds in H.
    destruct (number (as_dict sd !! "price_usd")) as [x|]; [|done].
    exists x. split; [done|]. by apply float_leb_le.
  - intros Hf. rewrite stringify_id_lookup by done.
    specialize (H "is_featured" (CEq (VBool true))).
    rewrite query_filter_featured, Hf in H. specialize (H eq_refl). unfold cond_holds in H.
    destruct (as_dict sd !! "is_featured") as [v|]; [|done].
    by rewrite (value_eqb_VBool _ _ H).
Qed.

Lemma selected_sound (q : CatalogQuery.t) (w : World) :
  (length (selected (query_filter q) w) ≤ 50)%nat ∧
  ∀ c, c ∈ selected (query_filter q) w → satisfies q c.
Proof.
  unfold selected. split.
  - rewrite length_fmap, length_take. lia.
  - intros c Hc. apply list_elem_of_fmap in Hc as (sd & -> & Hsd).
    apply elem_of_take in Hsd as (i & Hi & _).
    apply list_elem_of_lookup_2 in Hi.
    apply list_elem_of_filter in Hi as [Hm _].
    by apply matches_satisfies.
Qed.

(** C1 (as amended): the filter [query_carpets] builds holds exactly the
    constraints the query provides, a text constraint counting as provided
    only when it is not empty: region equality, style equality,
    [price_usd <= max_price], and [is_featured == true] when [featured_only]
    is set.  On a store that answers, the handler returns the first 50
    carpets the filter selects; whatever it returns has at most 50 carpets
    and each satisfies every provided constraint; a query with no
    constraint builds the empty filter and returns the first 50 carpets of
    the collection. *)
Theorem query_carpets_conjunction (q : CatalogQuery.t) (w : World) :
  (query_filter q !! "region" = (λ r, CEq (VStr r)) <$> provided (region q) ∧
   query_filter q !! "style" = (λ s, CEq (VStr s)) <$> provided (style q) ∧
   query_filter q !! "price_usd" = CLte <$> max_price q ∧
   query_filter q !! "is_featured" =
     (if featured_only q then Some (CEq (VBool true)) else None) ∧
   ∀ k, k ∉ ["region"; "style"; "price_usd"; "is_featured"] →
        query_filter q !! k = None) ∧
  (∀ d, db w = Some d → upcoming_fault d 0 = None →
        (query_carpets q w).1 =
        Return (JArray (selected (query_filter q) w))) ∧
  (∀ l, (query_carpets q w).1 = Return (JArray l) →
        (length l ≤ 50)%nat ∧ ∀ c, c ∈ l → satisfies q c) ∧
  (provided (region q) = None → provided (style q) = None →
   max_price q = None → featured_only q = false →
   query_filter q = ∅ ∧
   ∀ d, db w = Some d → upcoming_fault d 0 = None →
        (query_carpets q w).1 =
        Return (JArray (stringify_id <$> take 50 (documents "carpet" w)))).
Proof.
  split; [|split; [|split]].
  - eauto 6 using query_filter_region, query_filter_style,
      query_filter_price, query_filter_featured, query_filter_other.
  - intros d Hd Hf. by rewrite query_carpets_outcome, Hd, Hf.
  - intros l. rewrite query_carpets_outcome.
    destruct (db w) as [d|]; [|discriminate].
    destruct (upcoming_fault d 0); [discriminate|].
    intros [= <-]. apply selected_sound.
  - intros Hr Hs Hm Hf.
    pose proof (query_filter_absent q Hr Hs Hm Hf) as Hq.
    split; [done|]. intros d Hd Hfault.
    rewrite query_carpets_outcome, Hd, Hfault, Hq. unfold selected.
    rewrite filter_all; [done|]. intros sd. apply matches_empty.
Qed.

(** C1, counterexample: a query whose region is the empty string provides a
    region, yet the filter has no region constraint and the seeded catalog
    answers with a carpet whose region is not the empty string. *)
Lemma query_carpets_empty_region :
  region empty_region_query = Some "" ∧
  query_filter empty_region_query !! "region" = None ∧
  ∃ c l, (query_carpets empty_region_query seeded).1
         = Return (JArray (c :: l)) ∧
         c !! "region" = Some (VStr "Isfahan") ∧
         c !! "region" ≠ Some (VStr "").
Proof.
  split; [done|]. split; [done|].
  eexists _, _. split; [|split].
  - vm_compute. reflexivity.
  - vm_compute. reflexivity.
  - vm_compute. discriminate.
Qed.

End catalog_query.

(** ** Running the store calls *)

Section store.

Lemma upcoming_oid_0 (d : Database) :
  upcoming_oid d 0 = db_new_oid d (length (db_calls d)).
Proof. unfold upcoming_oid. by rewrite Nat.add_0_r. Qed.

Lemma insert_one_inserted (name : string) (doc : document) (d : Database) :
  upcoming_fault d 0 = None →
  upcoming_oid d 0 ∉ doc_id <$> collection name d →
  insert_one name doc d = (Return (upcoming_oid d 0), inserted name doc d).
Proof.
  intros Hf Hfresh. unfold insert_one, call, inserted.
  rewrite upcoming_fault_0 in Hf. rewrite upcoming_oid_0 in *.
  rewrite Hf. cbn. unfold collection in *. cbn.
  by rewrite bool_decide_eq_false_2.
Qed.

Lemma create_document_inserted `{BaseModel A} (name : string) (data : A)
    (w : World) (d : Database) :
  db w = Some d →
  upcoming_fault d 0 = None →
  upcoming_oid d 0 ∉ doc_id <$> collection name d →
  create_document name data w =
  (Return (str_oid (upcoming_oid d 0)),
   {| db := Some (inserted name (model_dump data) d);
      environ := environ w |}).
Proof.
  intros Hd Hf Hfresh. unfold create_document. unfold_M.
  by rewrite Hd, insert_one_inserted.
Qed.

Lemma collection_inserted (name : string) (doc : document) (d : Database) :
  collection name (inserted name doc d) =
  (collection name d
   ++ [{| doc_id := upcoming_oid d 0; doc_fields := doc |}])%list.
Proof. unfold collection at 1, inserted. cbn. by rewrite lookup_insert_eq. Qed.

Lemma collection_inserted_ne (name name' : string) (doc : document)
    (d : Database) :
  name ≠ name' →
  collection name' (inserted name doc d) = collection name' d.
Proof.
  intros Hne. unfold collection, inserted. cbn.
  by rewrite lookup_insert_ne.
Qed.

Lemma upcoming_fault_inserted (name : string) (doc : document)
    (d : Database) (k : nat) :
  upcoming_fault (inserted name doc d) k = upcoming_fault d (S k).
Proof.
  unfold upcoming_fault, inserted. cbn. rewrite length_app. cbn.
  f_equal. lia.
Qed.

Lemma upcoming_oid_inserted (name : string) (doc : document)
    (d : Database) (k : nat) :
  upcoming_oid (inserted name doc d) k = upcoming_oid d (S k).
Proof.
  unfold upcoming_oid, inserted. cbn. rewrite length_app. cbn.
  f_equal. lia.
Qed.

Lemma filter_none {A} (P : A → Prop) `{∀ x, Decision (P x)} (l : list A) :
  (∀ x, x ∈ l → ¬ P x) → filter P l = [].
Proof.
  intros HP. induction l as [|x l IH]; [done|].
  rewrite filter_cons_False by (apply HP; left).
  apply IH. intros y Hy. apply HP. by right.
Qed.

Lemma lookup_id_last (o : ObjectId) (doc : document)
    (docs : list StoredDoc) :
  o ∉ doc_id <$> docs →
  lookup_id o (docs ++ [{| doc_id := o; doc_fields := doc |}])
  = Some {| doc_id := o; doc_fields := doc |}.
Proof.
  intros Hfresh. unfold lookup_id. rewrite filter_app.
  rewrite filter_none.
  - rewrite filter_cons_True; [done|]. by apply matches_id.
  - intros sd Hsd Hm. apply matches_id in Hm. apply Hfresh.
    apply list_elem_of_fmap. eauto.
Qed.

Lemma lookup_id_None (o : ObjectId) (docs : list StoredDoc) :
  o ∉ doc_id <$> docs → lookup_id o docs = None.
Proof.
  intros Hfresh. unfold lookup_id. rewrite filter_none; [done|].
  intros sd Hsd Hm. apply matches_id in Hm. apply Hfresh.
  apply list_elem_of_fmap. eauto.
Qed.

Lemma lookup_id_Some (o : ObjectId) (docs : list StoredDoc)
    (sd : StoredDoc) :
  lookup_id o docs = Some sd → sd ∈ docs ∧ doc_id sd = o.
Proof.
  unfold lookup_id. intros Hh. apply head_Some_elem_of in Hh.
  apply list_elem_of_filter in Hh as [Hm Hin].
  split; [done|]. by apply matches_id.
Qed.

End store.

(** ** Looking a carpet up *)

Section lookup.

(** What [get_carpet] returns or raises, case by case. *)
Lemma get_carpet_outcome (carpet_id : string) (w : World) :
  (get_carpet carpet_id w).1 =
  match db w with
  | None => Raise (HTTPException 400 (str_exn not_subscriptable))
  | Some d =>
      match ObjectId_of_str carpet_id with
      | None => Raise (HTTPException 400 (str_exn (invalid_id carpet_id)))
      | Some o =>
          match upcoming_fault d 0 with
          | Some msg => Raise (HTTPException 400 msg)
          | None =>
              match lookup_id o (collection "carpet" d) with
              | None =>
                  Raise (HTTPException 400
                           (str_exn (HTTPException 404 "Carpet not found")))
              | Some sd => Return (JObject (stringify_id sd))
              end
          end
      end
  end.
Proof.
  unfold get_carpet, ObjectId_new, invalid_id, lookup_id. unfold_M.
  destruct (db w) as [d|] eqn:Hd; [|done].
  destruct (ObjectId_of_str carpet_id) as [o|]; unfold_M; [|done].
  rewrite Hd, upcoming_fault_0. unfold find_one, call.
  destruct (db_fault d (length (db_calls d))); cbn; [done|].
  unfold collection. cbn.
  by destruct (head _).
Qed.

End lookup.

(** ** Responses *)

Section responses.

Lemma respond_fst (handler : M Body) (w : World) :
  (respond handler w).1 =
  match (handler w).1 with
  | Return content =>
      if renderable_body content
      then OK content
      else Error 500 "Internal Server Error"
  | Raise (HTTPException status_code detail) => Error status_code detail
  | Raise _ => Error 500 "Internal Server Error"
  end.
Proof.
  unfold respond. destruct (handler w) as [[content|e] w'].
  - cbn. by destruct (renderable_body content).
  - by destruct e.
Qed.

Lemma respond_snd (handler : M Body) (w : World) :
  (respond handler w).2 = (handler w).2.
Proof.
  unfold respond. destruct (handler w) as [[content|e] w'].
  - by destruct (renderable_body content).
  - by destruct e.
Qed.

Lemma respond_Return (handler : M Body) (w w' : World) (content : Body) :
  handler w = (Return content, w') →
  renderable_body content = true →
  respond handler w = (OK content, w').
Proof. unfold respond. by intros -> ->. Qed.

Lemma renderable_document_insert (k : string) (v : value) (d : document) :
  renderable v = true →
  renderable_document d = true →
  renderable_document (<[k := v]> d) = true.
Proof.
  unfold renderable_document. rewrite !bool_decide_eq_true.
  intros Hv Hd. by apply map_Forall_insert_2.
Qed.

Lemma renderable_document_empty : renderable_document ∅ = true.
Proof.
  unfold renderable_document. apply bool_decide_eq_true, map_Forall_empty.
Qed.

Lemma renderable_id (x : string) :
  renderable_body (JObject {[ "id" := VStr x ]}) = true.
Proof.
  cbn. rewrite <- insert_empty.
  by apply renderable_document_insert, renderable_document_empty.
Qed.

Lemma renderable_dump_strs (l : list string) : renderable (dump_strs l) = true.
Proof. unfold dump_strs. cbn. by induction l as [|x l IH]. Qed.

Lemma documents_db (name : string) (w : World) (d : Database) :
  db w = Some d → documents name w = collection name d.
Proof. unfold documents. by intros ->. Qed.

End responses.

(** A document built by inserts of strings, lists of strings and the like
    can be rendered. *)
Ltac rendered :=
  repeat (apply renderable_document_insert;
          [first [reflexivity | apply renderable_dump_strs]|]);
  apply renderable_document_empty.

(** ** Create, then get *)

Section create_get.

Lemma dom_dump_carpet (c : Carpet.t) :
  dom (model_dump c) = list_to_set Carpet.fields.
Proof.
  unfold model_dump, Carpet.dump. rewrite !dom_insert_L, dom_empty_L.
  reflexivity.
Qed.

Lemma create_carpet_inserted (carpet : Carpet.t) (w : World) (d : Database) :
  db w = Some d →
  upcoming_fault d 0 = None →
  upcoming_oid d 0 ∉ doc_id <$> collection "carpet" d →
  create_carpet carpet w =
  (Return (JObject {[ "id" := VStr (str_oid (upcoming_oid d 0)) ]}),
   {| db := Some (inserted "carpet" (model_dump carpet) d);
      environ := environ w |}).
Proof.
  intros Hd Hf Hfresh. unfold create_carpet. unfold_M.
  by rewrite (create_document_inserted _ _ _ d).
Qed.

End create_get.

(** ** Seeding *)

Section seeding.

Lemma upcoming_fault_counted (d : Database) (k : nat) :
  upcoming_fault (counted d) k = upcoming_fault d (S k).
Proof.
  unfold upcoming_fault, counted. cbn. rewrite length_app. cbn.
  f_equal. lia.
Qed.

Lemma upcoming_oid_counted (d : Database) (k : nat) :
  upcoming_oid (counted d) k = upcoming_oid d (S k).
Proof.
  unfold upcoming_oid, counted. cbn. rewrite length_app. cbn.
  f_equal. lia.
Qed.

Lemma collection_counted (name : string) (d : Database) :
  collection name (counted d) = collection name d.
Proof. done. Qed.

Lemma count_documents_counted (d : Database) :
  upcoming_fault d 0 = None →
  count_documents "carpet" ∅ d
  = (Return (length (collection "carpet" d)), counted d).
Proof.
  intros Hf. unfold count_documents, call.
  rewrite upcoming_fault_0 in Hf. rewrite Hf. cbn.
  rewrite filter_all; [done|]. intros sd. apply matches_empty.
Qed.

Lemma seed_nonempty (w : World) (d : Database) :
  db w = Some d →
  upcoming_fault d 0 = None →
  collection "carpet" d ≠ [] →
  seed_demo_data w
  = (Return already_seeded, {| db := Some (counted d); environ := environ w |}).
Proof.
  intros Hd Hf Hne. unfold seed_demo_data, try_except, mbind, M_bind.
  rewrite (db_getitem_Some _ _ d Hd), (on_db_Some _ _ _ d Hd).
  rewrite (count_documents_counted _ Hf). cbn [fst snd].
  destruct (collection "carpet" d) as [|sd l]; [done|]. reflexivity.
Qed.

Lemma collection_with_samples (d : Database) :
  collection "carpet" d = [] →
  collection "carpet" (with_samples d) =
  [ {| doc_id := upcoming_oid d 1; doc_fields := model_dump sample_isfahan |};
    {| doc_id := upcoming_oid d 2; doc_fields := model_dump sample_tabriz |};
    {| doc_id := upcoming_oid d 3; doc_fields := model_dump sample_kashan |} ].
Proof.
  intros He. unfold with_samples.
  rewrite !collection_inserted, !upcoming_oid_inserted, collection_counted.
  by rewrite He, !upcoming_oid_counted.
Qed.

Lemma seed_empty (w : World) (d : Database) :
  db w = Some d →
  (∀ k, upcoming_fault d k = None) →
  collection "carpet" d = [] →
  NoDup [upcoming_oid d 1; upcoming_oid d 2; upcoming_oid d 3] →
  seed_demo_data w
  = (Return seeded_now,
     {| db := Some (with_samples d); environ := environ w |}).
Proof.
  intros Hd Hf He Hnd.
  apply NoDup_cons in Hnd as [H1 Hnd]. apply NoDup_cons in Hnd as [H2 _].
  rewrite !not_elem_of_cons in H1. rewrite !not_elem_of_cons in H2.
  destruct H1 as (H12 & H13 & _).
  destruct H2 as [H23 _].
  unfold seed_demo_data, samples, try_except, mbind, M_bind.
  rewrite (db_getitem_Some _ _ d Hd), (on_db_Some _ _ _ d Hd).
  rewrite (count_documents_counted _ (Hf 0)), He.
  cbn [fst snd length Nat.ltb Nat.leb for_each]. unfold mbind, M_bind.
  set (d0 := counted d).
  set (d1 := inserted "carpet" (model_dump sample_isfahan) d0).
  set (d2 := inserted "carpet" (model_dump sample_tabriz) d1).
  assert (collection "carpet" d0 = []) as E0 by done.
  assert (collection "carpet" d1 =
          [{| doc_id := upcoming_oid d 1;
              doc_fields := model_dump sample_isfahan |}]) as E1.
  { unfold d1. rewrite collection_inserted, E0. unfold d0.
    by rewrite upcoming_oid_counted. }
  assert (collection "carpet" d2 =
          [{| doc_id := upcoming_oid d 1;
              doc_fields := model_dump sample_isfahan |};
           {| doc_id := upcoming_oid d 2;
              doc_fields := model_dump sample_tabriz |}]) as E2.
  { unfold d2. rewrite collection_inserted, E1. unfold d1, d0.
    by rewrite upcoming_oid_inserted, upcoming_oid_counted. }
  rewrite (create_document_inserted _ _ _ d0); first last.
  { rewrite E0. apply not_elem_of_nil. }
  { unfold d0. by rewrite upcoming_fault_counted. }
  { done. }
  cbn [mret M_ret environ]. fold d1.
  rewrite (create_document_inserted _ _ _ d1); first last.
  { rewrite E1. unfold d1, d0.
    rewrite upcoming_oid_inserted, upcoming_oid_counted. cbn [fmap list_fmap doc_id].
    rewrite not_elem_of_cons. split; [congruence|apply not_elem_of_nil]. }
  { unfold d1, d0.
    by rewrite upcoming_fault_inserted, upcoming_fault_counted. }
  { done. }
  cbn [mret M_ret environ]. fold d2.
  rewrite (create_document_inserted _ _ _ d2); first last.
  { rewrite E2. unfold d2, d1, d0.
    rewrite !upcoming_oid_inserted, upcoming_oid_counted.
    cbn [fmap list_fmap doc_id]. rewrite !not_elem_of_cons.
    split_and!; [congruence|congruence|apply not_elem_of_nil]. }
  { unfold d2, d1, d0.
    by rewrite !upcoming_fault_inserted, upcoming_fault_counted. }
  { done. }
  reflexivity.
Qed.

(** C3: on a store that answers, a seed that finds carpets inserts nothing
    and reports that the catalog is already seeded; a seed that finds none
    inserts the three samples, given three new identifiers, and a second
    seed after it inserts nothing and reports the same: the catalog holds
    exactly the three samples. *)
Theorem seed_idempotent (w : World) (d : Database) :
  db w = Some d →
  (∀ k, upcoming_fault d k = None) →
  (documents "carpet" w ≠ [] →
   ∃ w', serve POST_seed w = (OK already_seeded, w') ∧
         ∀ name, documents name w' = documents name w) ∧
  (documents "carpet" w = [] →
   NoDup [upcoming_oid d 1; upcoming_oid d 2; upcoming_oid d 3] →
   ∃ w' w'',
     serve POST_seed w = (OK seeded_now, w') ∧
     doc_fields <$> documents "carpet" w' = model_dump <$> samples ∧
     serve POST_seed w' = (OK already_seeded, w'') ∧
     documents "carpet" w'' = documents "carpet" w' ∧
     length (documents "carpet" w'') = 3).
Proof.
  intros Hd Hf. rewrite (documents_db _ _ _ Hd). split.
  - intros Hne.
    exists {| db := Some (counted d); environ := environ w |}. split.
    + cbn. unfold respond. by rewrite (seed_nonempty _ d).
    + intros name. by rewrite (documents_db _ _ _ Hd).
  - intros He Hnd.
    set (w' := {| db := Some (with_samples d); environ := environ w |}).
    assert (collection "carpet" (with_samples d) ≠ []) as Hne.
    { by rewrite collection_with_samples. }
    exists w', {| db := Some (counted (with_samples d));
                  environ := environ w' |}.
    split_and!.
    + cbn. unfold respond. by rewrite (seed_empty _ d).
    + cbn. by rewrite collection_with_samples.
    + cbn [serve]. unfold respond.
      rewrite (seed_nonempty w' (with_samples d) eq_refl); [done| |done].
      unfold with_samples.
      by rewrite !upcoming_fault_inserted, upcoming_fault_counted.
    + done.
    + cbn. rewrite collection_counted. by rewrite collection_with_samples.
Qed.

Lemma seed_idempotent_witness :
  ∃ w' w'',
    serve POST_seed demo = (OK seeded_now, w') ∧
    doc_fields <$> documents "carpet" w' = model_dump <$> samples ∧
    serve POST_seed w' = (OK already_seeded, w'') ∧
    documents "carpet" w'' = documents "carpet" w' ∧
    length (documents "carpet" w'') = 3.
Proof.
  apply (seed_idempotent demo demo_db eq_refl (λ k, eq_refl)).
  - reflexivity.
  - refine (bool_decide_unpack _ _). vm_compute. exact I.
Defined.

End seeding.

(** ** Store calls per request *)

Section store_calls.

Local Open Scope list_scope.
Local Open Scope nat_scope.

Lemma insert_one_calls (name : string) (doc : document) (d : Database) :
  db_calls (insert_one name doc d).2 = db_calls d ++ [InsertOne name].
Proof.
  unfold insert_one, call.
  destruct (db_fault d (length (db_calls d))); [done|]. cbn.
  by destruct (bool_decide _).
Qed.

Lemma find_calls (name : string) (filt : gmap string cond) (limit : nat)
    (d : Database) :
  db_calls (find name filt limit d).2 = db_calls d ++ [Find name].
Proof.
  unfold find, call. by destruct (db_fault d (length (db_calls d))).
Qed.

Lemma find_one_calls (name : string) (filt : gmap string cond)
    (d : Database) :
  db_calls (find_one name filt d).2 = db_calls d ++ [FindOne name].
Proof.
  unfold find_one, call. by destruct (db_fault d (length (db_calls d))).
Qed.

Lemma count_documents_calls (name : string) (filt : gmap string cond)
    (d : Database) :
  db_calls (count_documents name filt d).2
  = db_calls d ++ [CountDocuments name].
Proof.
  unfold count_documents, call.
  by destruct (db_fault d (length (db_calls d))).
Qed.

Lemma list_collection_names_calls (d : Database) :
  db_calls (list_collection_names d).2 = db_calls d ++ [ListCollectionNames].
Proof.
  unfold list_collection_names, call.
  by destruct (db_fault d (length (db_calls d))).
Qed.

(** A driver call on [db] adds its one call to the log, or nothing when
    there is no store. *)
Lemma on_db_calls {A} (on_none : exn)
    (run : Database → outcome A * Database) (op : StoreOp) (w : World) :
  (∀ d, db_calls (run d).2 = db_calls d ++ [op]) →
  calls_of (on_db on_none run w).2
  = calls_of w ++ if_store w op.
Proof.
  intros Hrun. unfold on_db, calls_of, if_store.
  destruct (db w) as [d|] eqn:Hd.
  - specialize (Hrun d). by destruct (run d).
  - cbn. by rewrite Hd.
Qed.

Lemma try_except_raise_snd {A} (body : M A) (f : exn → exn) (w : World) :
  (try_except body (λ e, raise (f e)) w).2 = (body w).2.
Proof. unfold try_except. by destruct (body w) as [[x|e] w']. Qed.

Lemma bind_mret_snd {A B} (m : M A) (f : A → B) (w : World) :
  ((m ≫= λ x, mret (f x)) w).2 = (m w).2.
Proof. unfold mbind, M_bind. by destruct (m w) as [[x|e] w']. Qed.

Lemma create_document_calls `{BaseModel A} (name : string) (data : A)
    (w : World) :
  calls_of (create_document name data w).2
  = calls_of w ++ if_store w (InsertOne name).
Proof.
  unfold create_document. rewrite bind_mret_snd.
  apply on_db_calls. intros d. apply insert_one_calls.
Qed.

Lemma get_documents_calls (name : string) (filt : gmap string cond)
    (limit : nat) (w : World) :
  calls_of (get_documents name filt limit w).2
  = calls_of w ++ if_store w (Find name).
Proof.
  unfold get_documents. apply on_db_calls. intros d. apply find_calls.
Qed.

Lemma if_store_prefix (w : World) (op : StoreOp) :
  if_store w op `prefix_of` [op].
Proof. unfold if_store. destruct (db w); [done|]. apply prefix_nil. Qed.

Lemma create_carpet_adds (carpet : Carpet.t) (w : World) :
  ∃ l, adds (create_carpet carpet) w l ∧ l `prefix_of` [InsertOne "carpet"].
Proof.
  eexists. split; [|apply if_store_prefix].
  unfold adds, create_carpet.
  rewrite try_except_raise_snd, bind_mret_snd. apply create_document_calls.
Qed.

Lemma create_order_adds (order : Order.t) (w : World) :
  ∃ l, adds (create_order order) w l ∧ l `prefix_of` [InsertOne "order"].
Proof.
  eexists. split; [|apply if_store_prefix].
  unfold adds, create_order.
  rewrite try_except_raise_snd, bind_mret_snd. apply create_document_calls.
Qed.

Lemma create_review_adds (review : Review.t) (w : World) :
  ∃ l, adds (create_review review) w l ∧ l `prefix_of` [InsertOne "review"].
Proof.
  eexists. split; [|apply if_store_prefix].
  unfold adds, create_review.
  rewrite try_except_raise_snd, bind_mret_snd. apply create_document_calls.
Qed.

Lemma query_carpets_adds (q : CatalogQuery.t) (w : World) :
  ∃ l, adds (query_carpets q) w l ∧ l `prefix_of` [Find "carpet"].
Proof.
  eexists. split; [|apply if_store_prefix].
  unfold adds, query_carpets.
  rewrite try_except_raise_snd, bind_mret_snd. apply get_documents_calls.
Qed.

Lemma read_root_adds (w : World) : adds read_root w [].
Proof. unfold adds. cbn. by rewrite app_nil_r. Qed.

Lemma get_carpet_adds (carpet_id : string) (w : World) :
  ∃ l, adds (get_carpet carpet_id) w l ∧ l `prefix_of` [FindOne "carpet"].
Proof.
  unfold adds, get_carpet. rewrite try_except_raise_snd.
  unfold mbind, M_bind, db_getitem.
  destruct (db w) as [d|] eqn:Hd.
  2:{ exists []. split; [by rewrite app_nil_r|apply prefix_nil]. }
  unfold ObjectId_new.
  destruct (ObjectId_of_str carpet_id) as [o|].
  2:{ exists []. split; [by rewrite app_nil_r|apply prefix_nil]. }
  cbn [mret M_ret].
  pose proof (on_db_calls not_subscriptable
                (find_one "carpet" {[ "_id" := CEq (VOid o) ]})
                (FindOne "carpet") w (find_one_calls _ _)) as Hc.
  destruct (on_db _ _ w) as [[[sd|]|e] w'];
    exists (if_store w (FindOne "carpet"));
    (split; [exact Hc|apply if_store_prefix]).
Qed.

Lemma test_database_adds (w : World) :
  ∃ l, adds test_database w l ∧ l `prefix_of` [ListCollectionNames].
Proof.
  unfold adds, test_database. rewrite bind_mret_snd.
  destruct (db w) as [d|] eqn:Hd.
  2:{ exists []. split; [by rewrite app_nil_r|apply prefix_nil]. }
  unfold mbind, M_bind, getenv, try_except. cbn beta iota.
  pose proof (on_db_calls no_attribute list_collection_names
                ListCollectionNames w list_collection_names_calls) as Hc.
  destruct (on_db _ _ w) as [[names|e] w'];
    exists (if_store w ListCollectionNames);
    (split; [exact Hc|apply if_store_prefix]).
Qed.

Lemma M_bind_unfold {A B} (m : M A) (f : A → M B) (w : World) :
  (m ≫= f) w =
  match m w with
  | (Return x, w') => f x w'
  | (Raise e, w') => (Raise e, w')
  end.
Proof. done. Qed.

Lemma for_each_create_adds (l : list Carpet.t) (w : World) :
  ∃ n, n ≤ length l ∧
       calls_of (for_each l (λ s, create_document "carpet" s ;; mret ()) w).2
       = calls_of w ++ replicate n (InsertOne "carpet").
Proof.
  revert w. induction l as [|s l IH]; intros w.
  { exists 0. split; [done|]. cbn. by rewrite app_nil_r. }
  cbn [for_each].
  rewrite (M_bind_unfold (create_document "carpet" s ≫= λ _, mret ())).
  pose proof (create_document_calls "carpet" s w) as Hc.
  rewrite <- (bind_mret_snd _ (λ _, ())) in Hc.
  assert (∃ m, m ≤ 1 ∧
               if_store w (InsertOne "carpet")
               = replicate m (InsertOne "carpet")) as (m & Hm & E).
  { unfold if_store.
    destruct (db w); [exists 1|exists 0]; (split; [lia|done]). }
  rewrite E in Hc.
  destruct ((create_document "carpet" s ≫= λ _, mret ()) w)
    as [[x|e] w1]; cbn in Hc.
  - destruct (IH w1) as (n & Hn & Hl).
    exists (m + n). split; [cbn; lia|].
    rewrite Hl, Hc, <- app_assoc. by rewrite replicate_add.
  - exists m. split; [cbn; lia|done].
Qed.

Lemma seed_demo_data_adds (w : World) :
  ∃ l, adds seed_demo_data w l ∧
       l `prefix_of` [CountDocuments "carpet"; InsertOne "carpet";
                      InsertOne "carpet"; InsertOne "carpet"].
Proof.
  unfold adds, seed_demo_data. rewrite try_except_raise_snd.
  unfold mbind at 1 2, M_bind at 1 2, db_getitem.
  destruct (db w) as [d|] eqn:Hd.
  2:{ exists []. split; [by rewrite app_nil_r|apply prefix_nil]. }
  pose proof (on_db_calls not_subscriptable (count_documents "carpet" ∅)
                (CountDocuments "carpet") w (count_documents_calls _ _))
    as Hc.
  unfold if_store in Hc. rewrite Hd in Hc.
  destruct (on_db _ _ w) as [[n|e] w1]; cbn in Hc.
  2:{ exists [CountDocuments "carpet"]. split; [done|].
      by apply prefix_cons, prefix_nil. }
  destruct (0 <? n)%nat.
  { exists [CountDocuments "carpet"]. split; [done|].
    by apply prefix_cons, prefix_nil. }
  rewrite bind_mret_snd.
  destruct (for_each_create_adds samples w1) as (k & Hk & Hl).
  exists (CountDocuments "carpet" :: replicate k (InsertOne "carpet")).
  split.
  - rewrite Hl, Hc, <- app_assoc. done.
  - apply prefix_cons.
    change [InsertOne "carpet"; InsertOne "carpet"; InsertOne "carpet"]
      with (replicate 3 (InsertOne "carpet")).
    cbn in Hk. exists (replicate (3 - k) (InsertOne "carpet")).
    rewrite <- replicate_add. f_equal. lia.
Qed.

Lemma with_body_adds {P A} (validate : P → validated A)
    (handler : A → M Body) (body : P) (w : World) (budget : list StoreOp) :
  (∀ model, ∃ l, adds (handler model) w l ∧ l `prefix_of` budget) →
  ∃ l, calls_of (with_body validate handler body w).2 = calls_of w ++ l ∧
       l `prefix_of` budget.
Proof.
  intros Hh. unfold with_body. destruct (validate body) as [e|model].
  - exists []. split; [by rewrite app_nil_r|apply prefix_nil].
  - rewrite respond_snd. apply Hh.
Qed.

Lemma serve_adds (r : Request) (w : World) :
  ∃ l, calls_of (serve r w).2 = calls_of w ++ l ∧ l `prefix_of` budget r.
Proof.
  destruct r; cbn [serve budget].
  - rewrite respond_snd. exists []. split; [apply read_root_adds|done].
  - rewrite respond_snd. apply test_database_adds.
  - apply with_body_adds. intros c. apply create_carpet_adds.
  - apply with_body_adds. intros q. apply query_carpets_adds.
  - rewrite respond_snd. apply get_carpet_adds.
  - apply with_body_adds. intros o. apply create_order_adds.
  - apply with_body_adds. intros o. apply create_review_adds.
  - rewrite respond_snd. apply seed_demo_data_adds.
Qed.

(** C8 (as amended): the driver calls a request issues are an initial part
    of the calls of its handler: none for the root, one read for the
    diagnostics, the query and the lookup, one write for each create; and
    for the seed one count followed by one insert for each of the three
    samples.  So every handler but the seed issues at most one call, and
    the seed at most four. *)
Theorem store_calls_budget (r : Request) (w : World) :
  calls_of (serve r w).2 = calls_of w ++ store_calls r w ∧
  store_calls r w `prefix_of` budget r ∧
  (r ≠ POST_seed → length (store_calls r w) ≤ 1) ∧
  length (store_calls r w) ≤ 4.
Proof.
  destruct (serve_adds r w) as (l & Hl & Hp).
  assert (store_calls r w = l) as ->.
  { unfold store_calls. by rewrite Hl, drop_app_length. }
  split_and!; [done|done| |].
  - intros Hr. apply prefix_length in Hp.
    destruct r; cbn in Hp; try lia. done.
  - apply prefix_length in Hp. destruct r; cbn in *; lia.
Qed.

(** C8, counterexample: the seed of an empty catalog issues four driver
    calls, a read and three writes. *)
Lemma seed_issues_four_calls :
  store_calls POST_seed demo
  = [CountDocuments "carpet"; InsertOne "carpet"; InsertOne "carpet";
     InsertOne "carpet"] ∧
  ¬ length (store_calls POST_seed demo) ≤ 1.
Proof.
  assert (store_calls POST_seed demo
          = [CountDocuments "carpet"; InsertOne "carpet";
             InsertOne "carpet"; InsertOne "carpet"]) as E.
  { vm_compute. reflexivity. }
  split; [exact E|]. rewrite E. cbn. lia.
Qed.

End store_calls.

(** ** Store diagnostics *)

Section diagnostics.

Local Open Scope nat_scope.

Lemma list_collection_names_outcome (d : Database) :
  (list_collection_names d).1 =
  match upcoming_fault d 0 with
  | Some msg => Raise (PyMongoError msg)
  | None => Return (fst <$> map_to_list (db_collections d))
  end.
Proof.
  unfold list_collection_names, call. rewrite upcoming_fault_0.
  by destruct (db_fault d (length (db_calls d))).
Qed.

Lemma test_database_run (w : World) :
  ∃ response w',
    test_database w = (Return (JObject response), w') ∧
    renderable_document response = true ∧
    (∃ names, response !! "collections" = Some (dump_strs names) ∧
              length names ≤ 10) ∧
    (db w = None →
     response !! "database"
     = Some (VStr "⚠️  Available but not initialized")) ∧
    (∀ d msg, db w = Some d → upcoming_fault d 0 = Some msg →
       response !! "database"
       = Some (VStr ("⚠️  Connected but Error: "
                     ++ take_chars 50 msg)%string)) ∧
    (∀ d, db w = Some d → upcoming_fault d 0 = None →
       response !! "database" = Some (VStr "✅ Connected & Working") ∧
       response !! "collections"
       = Some (dump_strs (take 10 (fst <$> map_to_list (db_collections d))))).
Proof.
  unfold test_database.
  rewrite M_bind_unfold.
  destruct (db w) as [d|] eqn:Hd.
  - rewrite M_bind_unfold. unfold getenv. unfold try_except.
    rewrite M_bind_unfold, (on_db_Some _ _ _ d Hd).
    rewrite list_collection_names_outcome.
    destruct (upcoming_fault d 0) as [msg|] eqn:Hf.
    + eexists _, _. split_and!; [reflexivity|rendered| | | |].
      * exists []. split; [by simplify_map_eq|cbn; lia].
      * done.
      * intros d' msg' [= <-] Hf'. rewrite Hf in Hf'.
        injection Hf' as <-. by simplify_map_eq.
      * intros d' [= <-]. congruence.
    + eexists _, _. split_and!; [reflexivity|rendered| | | |].
      * eexists. split; [by simplify_map_eq|].
        rewrite length_take. lia.
      * done.
      * intros d' msg' [= <-]. congruence.
      * intros d' [= <-] _. by simplify_map_eq.
  - eexists _, _. split_and!; [reflexivity|rendered| | | |].
    + exists []. split; [by simplify_map_eq|cbn; lia].
    + intros _. by simplify_map_eq.
    + done.
    + done.
Qed.

(** C9: the diagnostics handler raises nothing: whatever the state of the
    store, it returns an object, and the request is answered with it.  The
    object lists at most 10 collection names.  Without a store, and when
    the call to the store fails, the error shows only as the text of the
    ["database"] field, cut to 50 characters of the message. *)
Theorem test_database_never_raises (w : World) :
  ∃ response w',
    test_database w = (Return (JObject response), w') ∧
    (serve GET_test w).1 = OK (JObject response) ∧
    (∃ names, response !! "collections" = Some (dump_strs names) ∧
              length names ≤ 10) ∧
    (db w = None →
     response !! "database"
     = Some (VStr "⚠️  Available but not initialized")) ∧
    (∀ d msg, db w = Some d → upcoming_fault d 0 = Some msg →
       response !! "database"
       = Some (VStr ("⚠️  Connected but Error: "
                     ++ take_chars 50 msg)%string)) ∧
    (∀ d, db w = Some d → upcoming_fault d 0 = None →
       response !! "database" = Some (VStr "✅ Connected & Working") ∧
       response !! "collections"
       = Some (dump_strs (take 10 (fst <$> map_to_list (db_collections d))))).
Proof.
  destruct (test_database_run w) as (response & w' & Ht & Hr & H).
  exists response, w'. split; [done|]. split; [|done].
  cbn [serve]. by rewrite (respond_Return _ _ _ _ Ht Hr).
Qed.

End diagnostics.

(** ** Validation *)

Section validation.

Lemma ge_float_inl (loc : string) (lo x : Q) :
  (x < lo)%Q → ge_float loc lo x = inl (GreaterThanEqual loc).
Proof.
  intros Hlt. unfold ge_float.
  destruct (Qle_bool lo x) eqn:E; [|done].
  apply Qle_bool_iff in E. by apply Qlt_not_le in Hlt.
Qed.

Lemma le_float_inl (loc : string) (hi x : Q) :
  (hi < x)%Q → le_float loc hi x = inl (LessThanEqual loc).
Proof.
  intros Hlt. unfold le_float.
  destruct (Qle_bool x hi) eqn:E; [|done].
  apply Qle_bool_iff in E. by apply Qlt_not_le in Hlt.
Qed.

Lemma bind_inl {A B} (m : validated A) (f : A → validated B) :
  (∀ x, m = inr x → ∃ e, f x = inl e) → ∃ e, m ≫= f = inl e.
Proof. destruct m as [e|x]; cbn; eauto. Qed.

Lemma Carpet_validate_rarity (p : Carpet.payload) (x : Q) :
  Carpet.p_rarity_score p = Some x → (x < 0 ∨ 1 < x)%Q →
  ∃ e, Carpet.validate p = inl e.
Proof.
  intros Hx Hout. unfold Carpet.validate. rewrite Hx.
  do 7 (apply bind_inl; intros ? _).
  enough (∃ e, ge_float "rarity_score" 0 x ≫= le_float "rarity_score" 1
               = inl e) as [e He].
  { cbn. rewrite He. cbn. eauto. }
  destruct Hout as [Hlt|Hgt].
  - rewrite (ge_float_inl _ _ _ Hlt). cbn. eauto.
  - unfold ge_float. destruct (Qle_bool 0 x); cbn; [|eauto].
    rewrite (le_float_inl _ _ _ Hgt). eauto.
Qed.

Lemma Review_validate_rating (p : Review.payload) (x : Z) :
  Review.p_rating p = Some x → (x < 1 ∨ 5 < x)%Z →
  ∃ e, Review.validate p = inl e.
Proof.
  intros Hx Hout. unfold Review.validate. rewrite Hx.
  do 2 (apply bind_inl; intros ? _).
  cbn. unfold ge_int, le_int.
  destruct (1 <=? x)%Z eqn:E1; cbn; [|eauto].
  destruct (x <=? 5)%Z eqn:E5; cbn; [|eauto]. lia.
Qed.

Lemma OrderItem_validate_quantity (i : OrderItem.payload) (x : Z) :
  OrderItem.p_quantity i = Some x → (x < 1)%Z →
  ∃ e, OrderItem.validate i = inl e.
Proof.
  intros Hx Hlt. unfold OrderItem.validate. rewrite Hx.
  apply bind_inl; intros ? _.
  cbn. unfold ge_int.
  destruct (1 <=? x)%Z eqn:E1; cbn; [lia|eauto].
Qed.

Lemma validate_items_quantity (items : list OrderItem.payload)
    (i : OrderItem.payload) (x : Z) :
  i ∈ items → OrderItem.p_quantity i = Some x → (x < 1)%Z →
  ∃ e, Order.validate_items items = inl e.
Proof.
  intros Hin Hx Hlt.
  induction items as [|j items IH]; [by apply elem_of_nil in Hin|].
  cbn [Order.validate_items].
  apply elem_of_cons in Hin as [<-|Hin].
  - destruct (OrderItem_validate_quantity i x Hx Hlt) as [e ->]. cbn. eauto.
  - apply bind_inl. intros ? _.
    destruct (IH Hin) as [e ->]. cbn. eauto.
Qed.

Lemma Order_validate_quantity (p : Order.payload)
    (items : list OrderItem.payload) (i : OrderItem.payload) (x : Z) :
  Order.p_items p = Some items → i ∈ items →
  OrderItem.p_quantity i = Some x → (x < 1)%Z →
  ∃ e, Order.validate p = inl e.
Proof.
  intros Hitems Hin Hx Hlt. unfold Order.validate. rewrite Hitems.
  do 3 (apply bind_inl; intros ? _).
  cbn.
  destruct (validate_items_quantity items i x Hin Hx Hlt) as [e ->]. eauto.
Qed.

Lemma with_body_inl {P A} (validate : P → validated A)
    (handler : A → M Body) (body : P) (w : World) (e : ValidationError) :
  validate body = inl e →
  with_body validate handler body w = (Unprocessable e, w).
Proof. unfold with_body. by intros ->. Qed.

Lemma store_calls_unchanged (r : Request) (w : World) :
  (serve r w).2 = w → store_calls r w = [].
Proof. unfold store_calls. intros ->. apply drop_all. Qed.

(** C4: a review whose rating is outside 1 to 5, a carpet whose rarity
    score is outside 0 to 1, and an order with an item whose quantity is
    below 1 are answered with a validation error; the world is left as it
    was: no driver call is issued and no document is created. *)
Theorem out_of_range_rejected (r : Request) (w : World) :
  out_of_range r →
  ∃ e, serve r w = (Unprocessable e, w) ∧
       status (serve r w).1 = 422 ∧
       store_calls r w = [] ∧
       ∀ name, documents name (serve r w).2 = documents name w.
Proof.
  intros Hout.
  assert (∃ e, serve r w = (Unprocessable e, w)) as [e He].
  { destruct r; try done; cbn [serve out_of_range] in *.
    - destruct Hout as (x & Hx & Hr).
      destruct (Carpet_validate_rarity body x Hx Hr) as [e He].
      exists e. by apply with_body_inl.
    - destruct Hout as (items & i & x & Hitems & Hin & Hx & Hlt).
      destruct (Order_validate_quantity body items i x Hitems Hin Hx Hlt)
        as [e He].
      exists e. by apply with_body_inl.
    - destruct Hout as (x & Hx & Hr).
      destruct (Review_validate_rating body x Hx Hr) as [e He].
      exists e. by apply with_body_inl. }
  exists e. split_and!; [done|by rewrite He| |by rewrite He].
  apply store_calls_unchanged. by rewrite He.
Qed.

Lemma out_of_range_rejected_witness :
  ∃ e, serve (POST_reviews review_rated_six) seeded
       = (Unprocessable e, seeded) ∧
       status (serve (POST_reviews review_rated_six) seeded).1 = 422 ∧
       store_calls (POST_reviews review_rated_six) seeded = [] ∧
       ∀ name, documents name (serve (POST_reviews review_rated_six) seeded).2
               = documents name seeded.
Proof.
  apply (out_of_range_rejected (POST_reviews review_rated_six) seeded).
  exists 6%Z. split; [reflexivity|right; lia].
Defined.

End validation.

(** ** Knot density and age *)

Section knot_density_and_age.

Import Carpet.

Lemma optional_mret {A} (o : option A) : optional mret o = inr o.
Proof. by destruct o. Qed.

Lemma validate_payload_with (p : payload) (knot age : option Z) :
  (∀ e, validate p = inl e → validate (payload_with knot age p) = inl e) ∧
  (∀ c, validate p = inr c →
        validate (payload_with knot age p) = inr (carpet_with knot age c) ∧
        knot_density_kpsi c = p_knot_density_kpsi p ∧
        age_years c = p_age_years p).
Proof.
  unfold validate. destruct p as [ti de re st si ma kn ag pr im co ra fe ins].
  cbn [payload_with p_title p_description p_region p_style p_size_cm
       p_materials p_knot_density_kpsi p_age_years p_price_usd p_images
       p_colors p_rarity_score p_is_featured p_in_stock].
  rewrite !optional_mret.
  destruct ti, re, st, si, pr as [pr|]; cbn;
    try (split; [done|intros ? [=]]).
  destruct (ge_float "price_usd" 0 pr); cbn;
    [split; [done|intros ? [=]]|].
  destruct (optional _ ra); cbn; [split; [done|intros ? [=]]|].
  split; [intros ? [=]|by intros ? [= <-]].
Qed.

(** C5 (as amended): [knot_density_kpsi] and [age_years] are optional
    integers without a range constraint.  Validation accepts or rejects a
    payload whatever the two values are, negative ones included: with
    other values in the two fields the same payload is rejected with the
    same error, or accepted as the same carpet carrying the new values; a
    carpet that is accepted holds both values as the payload gave them.
    And a payload that is accepted is persisted with them: on a store that
    answers and gives a new identifier, the request stores one more
    carpet, whose two fields are the values of the payload, or null where
    the payload gave none. *)
Theorem knot_density_and_age_unconstrained (p : payload)
    (knot age : option Z) :
  (∀ e, validate p = inl e → validate (payload_with knot age p) = inl e) ∧
  (∀ c, validate p = inr c →
        validate (payload_with knot age p) = inr (carpet_with knot age c) ∧
        knot_density_kpsi c = p_knot_density_kpsi p ∧
        age_years c = p_age_years p) ∧
  (∀ c w d,
     validate p = inr c →
     db w = Some d →
     upcoming_fault d 0 = None →
     (upcoming_oid d 0 ∉ doc_id <$> documents "carpet" w) →
     ∃ carpet_id w' sd,
       serve (POST_carpets p) w
       = (OK (JObject {[ "id" := VStr carpet_id ]}), w') ∧
       documents "carpet" w' = (documents "carpet" w ++ [sd])%list ∧
       doc_fields sd !! "knot_density_kpsi"
       = Some (from_option VInt VNone (p_knot_density_kpsi p)) ∧
       doc_fields sd !! "age_years"
       = Some (from_option VInt VNone (p_age_years p))).
Proof.
  destruct (validate_payload_with p knot age) as [Hl Hr].
  split_and!; [done|done|].
  intros c w d Hv Hd Hf Hfresh.
  destruct (Hr c Hv) as (_ & Hk & Ha).
  rewrite (documents_db _ _ _ Hd) in *.
  eexists _, _, _. split_and!.
  - cbn [serve]. unfold with_body. rewrite Hv.
    apply respond_Return; [by apply (create_carpet_inserted _ _ d)|].
    apply renderable_id.
  - unfold documents. cbn [db]. apply collection_inserted.
  - cbn [doc_fields]. unfold model_dump, Carpet.dump.
    rewrite Hk. by destruct (p_knot_density_kpsi p); simplify_map_eq.
  - cbn [doc_fields]. unfold model_dump, Carpet.dump.
    rewrite Ha. by destruct (p_age_years p); simplify_map_eq.
Qed.

(** C5, counterexample: a payload with a negative knot density and a
    negative age passes validation, is answered with an identifier, and is
    stored with the negative values. *)
Lemma negative_age_accepted :
  ∃ c carpet_id w' sd,
    validate negative_payload = inr c ∧
    serve (POST_carpets negative_payload) demo
    = (OK (JObject {[ "id" := VStr carpet_id ]}), w') ∧
    documents "carpet" w' = [sd] ∧
    doc_fields sd !! "knot_density_kpsi" = Some (VInt (-1)) ∧
    doc_fields sd !! "age_years" = Some (VInt (-5)).
Proof.
  eexists _, _, _, _. split_and!.
  - reflexivity.
  - vm_compute. reflexivity.
  - vm_compute. reflexivity.
  - vm_compute. reflexivity.
  - vm_compute. reflexivity.
Qed.

End knot_density_and_age.

(** ** Failures of the creation of a carpet *)

Section create_failures.

Lemma create_carpet_outcome (carpet : Carpet.t) (w : World) :
  (create_carpet carpet w).1 =
  match (create_document "carpet" carpet w).1 with
  | Return carpet_id => Return (JObject {[ "id" := VStr carpet_id ]})
  | Raise e => Raise (HTTPException 500 (str_exn e))
  end.
Proof.
  unfold create_carpet, try_except. rewrite M_bind_unfold.
  by destruct (create_document "carpet" carpet w) as [[x|e] w'].
Qed.

Lemma create_document_outcome `{BaseModel A} (name : string) (data : A)
    (w : World) :
  (create_document name data w).1 =
  match db w with
  | None => Raise not_available
  | Some d =>
      match upcoming_fault d 0 with
      | Some msg => Raise (PyMongoError msg)
      | None =>
          if bool_decide (upcoming_oid d 0 ∈ doc_id <$> collection name d)
          then Raise (DuplicateKeyError "E11000 duplicate key error")
          else Return (str_oid (upcoming_oid d 0))
      end
  end.
Proof.
  unfold create_document. rewrite M_bind_unfold. unfold on_db.
  destruct (db w) as [d|]; [|done].
  unfold insert_one, call. rewrite upcoming_fault_0, upcoming_oid_0.
  destruct (db_fault d (length (db_calls d))); [done|]. cbn.
  unfold collection. cbn. by destruct (bool_decide _).
Qed.

(** C7 (as amended): a valid Carpet payload is answered with status 500
    whenever the store fails: when there is no store, when the insert
    fails, and when the store refuses the identifier; the detail is the
    text of the error.  A payload that fails validation does not reach the
    handler: a well-typed payload whose numbers are finite (the payloads
    of [Carpet.payload]) and that misses a required field or has its
    price or rarity score out of range is answered with status 422, with
    the world left as it was. *)
Theorem create_carpet_failure_status (p : Carpet.payload) (w : World) :
  (∀ e, Carpet.validate p = inl e →
        serve (POST_carpets p) w = (Unprocessable e, w) ∧
        status (serve (POST_carpets p) w).1 = 422) ∧
  (∀ c, Carpet.validate p = inr c →
     (∀ e, (create_document "carpet" c w).1 = Raise e →
           (serve (POST_carpets p) w).1 = Error 500 (str_exn e)) ∧
     (db w = None →
      (serve (POST_carpets p) w).1 = Error 500 "Database not available") ∧
     (∀ d msg, db w = Some d → upcoming_fault d 0 = Some msg →
               (serve (POST_carpets p) w).1 = Error 500 msg) ∧
     (∀ d, db w = Some d → upcoming_fault d 0 = None →
           upcoming_oid d 0 ∈ doc_id <$> documents "carpet" w →
           status (serve (POST_carpets p) w).1 = 500)).
Proof.
  split.
  - intros e He. cbn [serve]. by rewrite (with_body_inl _ _ _ _ e He).
  - intros c Hc. cbn [serve]. unfold with_body. rewrite Hc.
    rewrite respond_fst, create_carpet_outcome, create_document_outcome.
    unfold documents. split_and!.
    + by intros e ->.
    + by intros ->.
    + by intros d msg -> ->.
    + intros d -> -> Hin. by rewrite bool_decide_eq_true_2.
Qed.

(** C7, counterexample: a Carpet payload with a negative price fails
    validation and is answered with status 422, not 500. *)
Lemma invalid_carpet_is_422 :
  (∃ e, Carpet.validate negative_price_payload = inl e) ∧
  status (serve (POST_carpets negative_price_payload) demo).1 = 422 ∧
  status (serve (POST_carpets negative_price_payload) demo).1 ≠ 500.
Proof.
  split_and!.
  - eexists. reflexivity.
  - reflexivity.
  - cbn. discriminate.
Qed.

End create_failures.

(** ** Orders without items *)

Section empty_order.

Import Order.

(** C10: an Order payload whose required fields are there and whose items
    are the empty list passes validation, as an order without items; on a
    store that answers and gives it a new identifier, the order is created:
    the request is answered with the identifier and the order collection
    holds one more document, the order. *)
Theorem create_order_empty_items (p : payload) (w : World) (d : Database)
    (customer_name customer_email shipping_address : string)
    (subtotal_usd : Q) :
  p_customer_name p = Some customer_name →
  p_customer_email p = Some customer_email →
  p_shipping_address p = Some shipping_address →
  p_subtotal_usd p = Some subtotal_usd →
  p_items p = Some [] →
  db w = Some d →
  upcoming_fault d 0 = None →
  upcoming_oid d 0 ∉ doc_id <$> documents "order" w →
  ∃ order w',
    validate p = inr order ∧
    items order = [] ∧
    serve (POST_orders p) w
    = (OK (JObject {[ "id" := VStr (str_oid (upcoming_oid d 0)) ]}), w') ∧
    documents "order" w'
    = (documents "order" w
       ++ [{| doc_id := upcoming_oid d 0;
              doc_fields := model_dump order |}])%list.
Proof.
  intros Hn He Ha Hs Hi Hd Hf Hfresh.
  rewrite (documents_db _ _ _ Hd) in *.
  eexists _, _. split_and!.
  - unfold validate. rewrite Hn, He, Ha, Hs, Hi. reflexivity.
  - reflexivity.
  - cbn [serve]. unfold with_body, validate.
    rewrite Hn, He, Ha, Hs, Hi. cbn.
    unfold respond, create_order, try_except. rewrite M_bind_unfold.
    rewrite (create_document_inserted _ _ _ d Hd Hf Hfresh). reflexivity.
  - cbn. by rewrite collection_inserted.
Qed.

Lemma create_order_empty_items_witness :
  ∃ order w',
    validate empty_order = inr order ∧
    items order = [] ∧
    serve (POST_orders empty_order) seeded
    = (OK (JObject {[ "id" := VStr "000000000000000000000004" ]}), w') ∧
    length (documents "order" w') = 1.
Proof.
  destruct (create_order_empty_items empty_order seeded
              (with_samples demo_db) "Ada" "ada@example.org"
              "1 Main Street" 0%Q)
    as (order & w' & Hv & Hi & Hs & Hdocs).
  - reflexivity.
  - reflexivity.
  - reflexivity.
  - reflexivity.
  - reflexivity.
  - vm_compute. reflexivity.
  - reflexivity.
  - cbn. apply not_elem_of_nil.
  - exists order, w'. split_and!; [done|done|exact Hs|].
    rewrite Hdocs. reflexivity.
Defined.

End empty_order.

(** ** The handlers on the example stores *)

Section examples.

(** The example of the spec: of the seeded catalog, the featured carpets of
    at most 30000 USD are the Tabriz carpet alone. *)
Example query_featured_under_30000 :
  ∃ c, (query_carpets {| CatalogQuery.region := None;
                         CatalogQuery.style := None;
                         CatalogQuery.max_price := Some 30000%Q;
                         CatalogQuery.featured_only := true |} seeded).1
       = Return (JArray [c]) ∧
       c !! "title" = Some (VStr "Tabriz Garden of Paradise") ∧
       c !! "_id" = Some (VStr "000000000000000000000002").
Proof.
  eexists. split_and!.
  - vm_compute. reflexivity.
  - vm_compute. reflexivity.
  - vm_compute. reflexivity.
Qed.

Example get_carpet_malformed :
  (serve (GET_carpet "tabriz") seeded).1
  = Error 400 ("'tabriz' is not a valid ObjectId, it must be a 12-byte"
               ++ " input or a 24-character hex string").
Proof. vm_compute. reflexivity. Qed.

Example get_carpet_absent :
  (serve (GET_carpet "0000000000000000000000ff") seeded).1
  = Error 400 "404: Carpet not found".
Proof. vm_compute. reflexivity. Qed.

(** An identifier is accepted in upper case and comes back in lower
    case. *)
Example get_carpet_upper_case :
  ∃ c, (serve (GET_carpet "00000000000000000000000A")
              (Nat.iter 7 (λ w, (serve (POST_carpets example_payload) w).2)
                        seeded)).1
       = OK (JObject c) ∧
       c !! "_id" = Some (VStr "00000000000000000000000a").
Proof.
  eexists. split.
  - vm_compute. reflexivity.
  - vm_compute. reflexivity.
Qed.

Example get_carpet_without_store :
  (serve (GET_carpet "000000000000000000000001") unavailable).1
  = Error 400 "'NoneType' object is not subscriptable".
Proof. vm_compute. reflexivity. Qed.

Example create_carpet_without_store :
  (serve (POST_carpets example_payload) unavailable).1
  = Error 500 "Database not available".
Proof. vm_compute. reflexivity. Qed.

Example create_carpet_failing_store :
  (serve (POST_carpets example_payload) failing).1
  = Error 500 "connection refused".
Proof. vm_compute. reflexivity. Qed.

Example test_database_failing_store :
  ∃ response,
    (serve GET_test failing).1 = OK (JObject response) ∧
    response !! "database"
    = Some (VStr "⚠️  Connected but Error: connection refused") ∧
    response !! "database_name" = Some (VStr "✅ Connected") ∧
    response !! "connection_status" = Some (VStr "Connected") ∧
    response !! "collections" = Some (VList []).
Proof.
  eexists. split_and!; vm_compute; reflexivity.
Qed.

Example test_database_without_store :
  ∃ response,
    (serve GET_test unavailable).1 = OK (JObject response) ∧
    response !! "database"
    = Some (VStr "⚠️  Available but not initialized") ∧
    response !! "connection_status" = Some (VStr "Not Connected").
Proof.
  eexists. split_and!; vm_compute; reflexivity.
Qed.

Example test_database_seeded :
  ∃ response,
    (serve GET_test seeded).1 = OK (JObject response) ∧
    response !! "database" = Some (VStr "✅ Connected & Working") ∧
    response !! "database_name" = Some (VStr "carpets") ∧
    response !! "collections" = Some (VList [VStr "carpet"]).
Proof.
  eexists. split_and!; vm_compute; reflexivity.
Qed.

End examples.

(** ** What the handlers do to the collections *)

Section collections.

Local Open Scope list_scope.

Lemma find_collections (name : string) (filt : gmap string cond)
    (limit : nat) (d : Database) :
  db_collections (find name filt limit d).2 = db_collections d.
Proof.
  unfold find, call. by destruct (db_fault d (length (db_calls d))).
Qed.

Lemma find_one_collections (name : string) (filt : gmap string cond)
    (d : Database) :
  db_collections (find_one name filt d).2 = db_collections d.
Proof.
  unfold find_one, call. by destruct (db_fault d (length (db_calls d))).
Qed.

Lemma count_documents_collections (name : string) (filt : gmap string cond)
    (d : Database) :
  db_collections (count_documents name filt d).2 = db_collections d.
Proof.
  unfold count_documents, call.
  by destruct (db_fault d (length (db_calls d))).
Qed.

Lemma list_collection_names_collections (d : Database) :
  db_collections (list_collection_names d).2 = db_collections d.
Proof.
  unfold list_collection_names, call.
  by destruct (db_fault d (length (db_calls d))).
Qed.

(** A driver call that leaves the collections alone leaves the documents of
    the world alone. *)
Lemma on_db_read_documents {A} (on_none : exn)
    (run : Database → outcome A * Database) (w : World) (name : string) :
  (∀ d, db_collections (run d).2 = db_collections d) →
  documents name (on_db on_none run w).2 = documents name w.
Proof.
  intros Hrun. unfold on_db, documents.
  destruct (db w) as [d|] eqn:Hd.
  - specialize (Hrun d). destruct (run d) as [r d']. cbn in *.
    unfold collection. by rewrite Hrun.
  - cbn. by rewrite Hd.
Qed.

(** An insert either fails and stores nothing, or stores the document under
    an identifier the collection does not hold. *)
Lemma insert_one_cases (name : string) (doc : document) (d : Database) :
  ((∃ e, (insert_one name doc d).1 = Raise e) ∧
   db_collections (insert_one name doc d).2 = db_collections d) ∨
  ((upcoming_oid d 0 ∉ doc_id <$> collection name d) ∧
   insert_one name doc d = (Return (upcoming_oid d 0), inserted name doc d)).
Proof.
  destruct (upcoming_fault d 0) as [msg|] eqn:Hf.
  { left. unfold insert_one, call. rewrite upcoming_fault_0 in Hf.
    rewrite Hf. cbn. eauto. }
  destruct (decide (upcoming_oid d 0 ∈ doc_id <$> collection name d))
    as [Hin|Hfresh].
  - left. unfold insert_one, call. rewrite upcoming_fault_0 in Hf.
    rewrite upcoming_oid_0 in Hin. rewrite Hf. cbn.
    unfold collection in *. cbn.
    rewrite bool_decide_eq_true_2 by done. cbn. eauto.
  - right. split; [done|]. by apply insert_one_inserted.
Qed.

Lemma documents_inserted (name name' : string) (doc : document)
    (d : Database) (env : gmap string string) :
  documents name' {| db := Some (inserted name doc d); environ := env |} =
  if decide (name = name')
  then collection name d
       ++ [{| doc_id := upcoming_oid d 0; doc_fields := doc |}]
  else collection name' d.
Proof.
  unfold documents. cbn [db]. destruct (decide (name = name')) as [<-|Hne].
  - apply collection_inserted.
  - by apply collection_inserted_ne.
Qed.

(** The two outcomes of [create_document]. *)
Lemma create_document_cases `{BaseModel A} (name : string) (data : A)
    (w : World) :
  ((∃ e, (create_document name data w).1 = Raise e) ∧
   ∀ name', documents name' (create_document name data w).2
            = documents name' w) ∨
  (∃ d, db w = Some d ∧
        (upcoming_oid d 0 ∉ doc_id <$> documents name w) ∧
        create_document name data w =
        (Return (str_oid (upcoming_oid d 0)),
         {| db := Some (inserted name (model_dump data) d);
            environ := environ w |})).
Proof.
  destruct (db w) as [d|] eqn:Hd.
  2:{ left. unfold create_document. rewrite M_bind_unfold. unfold on_db.
      rewrite Hd. cbn. eauto. }
  destruct (insert_one_cases name (model_dump data) d)
    as [[[e He] Hc]|[Hfresh Hi]].
  - left. unfold create_document. rewrite M_bind_unfold.
    rewrite (on_db_Some _ _ _ d Hd), He. cbn. split; [eauto|].
    intros name'. unfold documents. cbn. rewrite Hd.
    unfold collection. by rewrite Hc.
  - right. exists d. rewrite (documents_db _ _ _ Hd).
    split_and!; [done|done|].
    unfold create_document. rewrite M_bind_unfold.
    by rewrite (on_db_Some _ _ _ d Hd), Hi.
Qed.

(** What [create_document] does to each collection: nothing, or one more
    document at the end of its own collection, under a new identifier. *)
Lemma create_document_effect `{BaseModel A} (name : string) (data : A)
    (w : World) (name' : string) :
  documents name' (create_document name data w).2 = documents name' w ∨
  (name' = name ∧
   ∃ oid, (oid ∉ doc_id <$> documents name w) ∧
          documents name (create_document name data w).2
          = documents name w
            ++ [{| doc_id := oid; doc_fields := model_dump data |}]).
Proof.
  destruct (create_document_cases name data w)
    as [[_ Hsame]|(d & Hd & Hfresh & ->)].
  { by left. }
  cbn [snd]. rewrite !documents_inserted, !(documents_db _ _ _ Hd).
  destruct (decide (name = name')) as [<-|Hne]; [|by left].
  right. split; [done|]. exists (upcoming_oid d 0).
  rewrite (documents_db _ _ _ Hd) in Hfresh.
  by rewrite decide_True.
Qed.

Lemma create_carpet_snd (carpet : Carpet.t) (w : World) :
  (create_carpet carpet w).2 = (create_document "carpet" carpet w).2.
Proof.
  unfold create_carpet. by rewrite try_except_raise_snd, bind_mret_snd.
Qed.

Lemma create_order_snd (order : Order.t) (w : World) :
  (create_order order w).2 = (create_document "order" order w).2.
Proof.
  unfold create_order. by rewrite try_except_raise_snd, bind_mret_snd.
Qed.

Lemma create_review_snd (review : Review.t) (w : World) :
  (create_review review w).2 = (create_document "review" review w).2.
Proof.
  unfold create_review. by rewrite try_except_raise_snd, bind_mret_snd.
Qed.

Lemma query_carpets_documents (q : CatalogQuery.t) (w : World)
    (name : string) :
  documents name (query_carpets q w).2 = documents name w.
Proof.
  unfold query_carpets, get_documents.
  rewrite try_except_raise_snd, bind_mret_snd.
  apply on_db_read_documents. intros d. apply find_collections.
Qed.

Lemma get_carpet_documents (carpet_id : string) (w : World)
    (name : string) :
  documents name (get_carpet carpet_id w).2 = documents name w.
Proof.
  unfold get_carpet. rewrite try_except_raise_snd.
  rewrite M_bind_unfold. unfold db_getitem.
  destruct (db w) as [d|] eqn:Hd; [|done].
  rewrite M_bind_unfold. unfold ObjectId_new.
  destruct (ObjectId_of_str carpet_id) as [o|]; [|done].
  cbn [mret M_ret]. rewrite M_bind_unfold.
  pose proof (on_db_read_documents not_subscriptable
                (find_one "carpet" {[ "_id" := CEq (VOid o) ]}) w name
                (find_one_collections _ _)) as Hc.
  by destruct (on_db _ _ w) as [[[sd|]|e] w'].
Qed.

Lemma test_database_documents (w : World) (name : string) :
  documents name (test_database w).2 = documents name w.
Proof.
  unfold test_database. rewrite bind_mret_snd.
  destruct (db w) as [d|] eqn:Hd; [|done].
  rewrite M_bind_unfold. unfold getenv, try_except.
  rewrite M_bind_unfold.
  pose proof (on_db_read_documents no_attribute list_collection_names w
                name list_collection_names_collections) as Hc.
  by destruct (on_db _ _ w) as [[names|e] w'].
Qed.

Lemma serve_read_only_documents (r : Request) (w : World)
    (name : string) :
  read_only r = true →
  documents name (serve r w).2 = documents name w.
Proof.
  intros Hr. destruct r; try discriminate; cbn [serve].
  - by rewrite respond_snd.
  - rewrite respond_snd. apply test_database_documents.
  - unfold with_body. cbn. rewrite respond_snd.
    apply query_carpets_documents.
  - rewrite respond_snd. apply get_carpet_documents.
Qed.

End collections.

(** ** Relations every request keeps *)

Section preservation.

(** A relation between the world before and the world after that holds
    when no collection changed, composes, and holds across the inserts the
    handlers make. *)
Variable R : World → World → Prop.

Hypothesis R_documents :
  ∀ w w', (∀ name, documents name w' = documents name w) → R w w'.
Hypothesis R_trans : ∀ w1 w2 w3, R w1 w2 → R w2 w3 → R w1 w3.
Hypothesis R_carpet :
  ∀ p c w, Carpet.validate p = inr c →
           R w (create_document "carpet" c w).2.
Hypothesis R_sample :
  ∀ s w, s ∈ samples → R w (create_document "carpet" s w).2.
Hypothesis R_order :
  ∀ p o w, Order.validate p = inr o → R w (create_document "order" o w).2.
Hypothesis R_review :
  ∀ p r w, Review.validate p = inr r →
           R w (create_document "review" r w).2.

Lemma R_refl (w : World) : R w w.
Proof. by apply R_documents. Qed.

Lemma for_each_samples_preserves (l : list Carpet.t) (w : World) :
  (∀ s, s ∈ l → s ∈ samples) →
  R w (for_each l (λ s, create_document "carpet" s ;; mret ()) w).2.
Proof.
  revert w. induction l as [|s l IH]; intros w Hl; [apply R_refl|].
  cbn [for_each].
  rewrite (M_bind_unfold (create_document "carpet" s ≫= λ _, mret ())).
  assert (R w ((create_document "carpet" s ≫= λ _, mret ()) w).2) as Hs.
  { rewrite (bind_mret_snd _ (λ _, ())). apply R_sample, Hl. left. }
  destruct ((create_document "carpet" s ≫= λ _, mret ()) w)
    as [[x|e] w1]; [|done].
  cbn [snd] in Hs. apply (R_trans _ w1); [done|].
  apply IH. intros s' Hs'. apply Hl. by right.
Qed.

Lemma seed_demo_data_preserves (w : World) : R w (seed_demo_data w).2.
Proof.
  unfold seed_demo_data. rewrite try_except_raise_snd.
  rewrite M_bind_unfold. unfold db_getitem.
  destruct (db w) as [d|] eqn:Hd; [|apply R_refl].
  rewrite M_bind_unfold.
  assert (R w (on_db not_subscriptable (count_documents "carpet" ∅) w).2)
    as Hc.
  { apply R_documents. intros name. apply on_db_read_documents.
    intros d'. apply count_documents_collections. }
  destruct (on_db _ _ w) as [[n|e] w1]; [|done]. cbn [snd] in Hc.
  destruct (0 <? n)%nat; [done|].
  rewrite bind_mret_snd. apply (R_trans _ w1); [done|].
  by apply for_each_samples_preserves.
Qed.

Lemma serve_preserves (r : Request) (w : World) : R w (serve r w).2.
Proof.
  destruct r; cbn [serve]; unfold with_body.
  - apply R_documents. intros name.
    by apply (serve_read_only_documents GET_root).
  - apply R_documents. intros name.
    by apply (serve_read_only_documents GET_test).
  - destruct (Carpet.validate body) as [e|c] eqn:Hv; [apply R_refl|].
    rewrite respond_snd, create_carpet_snd. by apply (R_carpet body).
  - apply R_documents. intros name.
    by apply (serve_read_only_documents (POST_carpets_query body)).
  - apply R_documents. intros name.
    by apply (serve_read_only_documents (GET_carpet carpet_id)).
  - destruct (Order.validate body) as [e|o] eqn:Hv; [apply R_refl|].
    rewrite respond_snd, create_order_snd. by apply (R_order body).
  - destruct (Review.validate body) as [e|rv] eqn:Hv; [apply R_refl|].
    rewrite respond_snd, create_review_snd. by apply (R_review body).
  - rewrite respond_snd. apply seed_demo_data_preserves.
Qed.

End preservation.

(** ** Invariants of the store *)

Section invariants.

Local Open Scope list_scope.

Lemma environ_on_db {A} (on_none : exn)
    (run : Database → outcome A * Database) (w : World) :
  environ (on_db on_none run w).2 = environ w.
Proof. unfold on_db. destruct (db w) as [d|]; [|done]. by destruct (run d). Qed.

(** X1: the root, the diagnostics, the catalog query and the lookup of a
    carpet leave every collection as it was, whatever they answer. *)
Theorem read_only_keeps_documents (r : Request) (w : World) :
  read_only r = true →
  ∀ name, documents name (serve r w).2 = documents name w.
Proof.
  intros Hr name. destruct r; try discriminate; cbn [serve].
  - by rewrite respond_snd.
  - rewrite respond_snd. apply test_database_documents.
  - unfold with_body. cbn. rewrite respond_snd.
    apply query_carpets_documents.
  - rewrite respond_snd. apply get_carpet_documents.
Qed.

Lemma read_only_keeps_documents_witness :
  documents "carpet" (serve (GET_carpet "000000000000000000000001") seeded).2
  = documents "carpet" seeded.
Proof.
  apply (read_only_keeps_documents
           (GET_carpet "000000000000000000000001") seeded).
  reflexivity.
Defined.

Lemma create_document_prefix `{BaseModel A} (name : string) (data : A)
    (w : World) (name' : string) :
  documents name' w `prefix_of` documents name' (create_document name data w).2.
Proof.
  destruct (create_document_effect name data w name')
    as [->|(-> & oid & _ & ->)]; [done|].
  by apply prefix_app_r.
Qed.

(** X2: no request removes or changes a stored document: in every
    collection the documents held before the request are an initial part,
    in the same order, of those held after it. *)
Theorem serve_append_only (r : Request) (w : World) (name : string) :
  documents name w `prefix_of` documents name (serve r w).2.
Proof.
  revert name.
  apply (serve_preserves
           (λ w w', ∀ name, documents name w `prefix_of` documents name w')).
  - intros w1 w2 Hsame name. by rewrite Hsame.
  - intros w1 w2 w3 H12 H23 name.
    transitivity (documents name w2); [apply H12|apply H23].
  - intros p c w1 _ name. apply create_document_prefix.
  - intros s w1 _ name. apply create_document_prefix.
  - intros p o w1 _ name. apply create_document_prefix.
  - intros p rv w1 _ name. apply create_document_prefix.
Qed.

Lemma create_document_unique_ids `{BaseModel A} (name : string) (data : A)
    (w : World) :
  unique_ids w → unique_ids (create_document name data w).2.
Proof.
  intros Hu name'.
  destruct (create_document_effect name data w name')
    as [->|(-> & oid & Hfresh & ->)]; [apply Hu|].
  rewrite fmap_app. apply NoDup_app. split_and!.
  - apply Hu.
  - intros o Ho Ho'. cbn in Ho'. apply list_elem_of_singleton in Ho'.
    subst. contradiction.
  - cbn. apply NoDup_singleton.
Qed.

(** X3: if the identifiers of every collection are pairwise distinct
    before a request, they are after it. *)
Theorem serve_unique_ids (r : Request) (w : World) :
  unique_ids w → unique_ids (serve r w).2.
Proof.
  apply (serve_preserves (λ w w', unique_ids w → unique_ids w')).
  - intros w1 w2 Hsame Hu name. rewrite Hsame. apply Hu.
  - intros w1 w2 w3 H12 H23. auto.
  - intros p c w1 _. apply create_document_unique_ids.
  - intros s w1 _. apply create_document_unique_ids.
  - intros p o w1 _. apply create_document_unique_ids.
  - intros p rv w1 _. apply create_document_unique_ids.
Qed.

Lemma documents_demo (name : string) : documents name demo = [].
Proof. unfold documents, collection. cbn. by rewrite lookup_empty. Qed.

Lemma serve_unique_ids_witness : unique_ids (serve POST_seed demo).2.
Proof.
  apply (serve_unique_ids POST_seed demo).
  intros name. rewrite documents_demo. apply NoDup_nil_2.
Defined.

Lemma ge_float_inr (loc : string) (lo x y : Q) :
  ge_float loc lo x = inr y ↔ y = x ∧ (lo <= x)%Q.
Proof.
  unfold ge_float. destruct (Qle_bool lo x) eqn:E.
  - apply Qle_bool_iff in E. split; [by intros [= <-]|by intros [-> _]].
  - split; [discriminate|]. intros [_ Hle].
    apply Qle_bool_iff in Hle. congruence.
Qed.

Lemma le_float_inr (loc : string) (hi x y : Q) :
  le_float loc hi x = inr y ↔ y = x ∧ (x <= hi)%Q.
Proof.
  unfold le_float. destruct (Qle_bool x hi) eqn:E.
  - apply Qle_bool_iff in E. split; [by intros [= <-]|by intros [-> _]].
  - split; [discriminate|]. intros [_ Hle].
    apply Qle_bool_iff in Hle. congruence.
Qed.

Lemma ge_int_inr (loc : string) (lo x y : Z) :
  ge_int loc lo x = inr y ↔ y = x ∧ (lo ≤ x)%Z.
Proof.
  unfold ge_int. destruct (lo <=? x)%Z eqn:E.
  - apply Z.leb_le in E. split; [by intros [= <-]|by intros [-> _]].
  - apply Z.leb_gt in E. split; [discriminate|]. intros [_ Hle]. lia.
Qed.

Lemma le_int_inr (loc : string) (hi x y : Z) :
  le_int loc hi x = inr y ↔ y = x ∧ (x ≤ hi)%Z.
Proof.
  unfold le_int. destruct (x <=? hi)%Z eqn:E.
  - apply Z.leb_le in E. split; [by intros [= <-]|by intros [-> _]].
  - apply Z.leb_gt in E. split; [discriminate|]. intros [_ Hle]. lia.
Qed.

(** A bind of validations succeeds when both steps do. *)
Lemma bind_inr {A B} (m : validated A) (f : A → validated B) (y : B) :
  m ≫= f = inr y ↔ ∃ x, m = inr x ∧ f x = inr y.
Proof.
  destruct m as [e|x]; cbn.
  - split; [discriminate|]. by intros (x & [=] & _).
  - split; [eauto|]. by intros (x' & [= <-] & Hf).
Qed.

Lemma required_inr {A} (loc : string) (field : option A) (x : A) :
  required loc field = inr x ↔ field = Some x.
Proof. destruct field; cbn; split; congruence. Qed.

(** The two range checks of a rarity score and of an age. *)
Lemma rarity_check_inr (x y : Q) :
  ge_float "rarity_score" 0 x ≫= le_float "rarity_score" 1 = inr y ↔
  y = x ∧ (0 <= x)%Q ∧ (x <= 1)%Q.
Proof.
  rewrite bind_inr. split.
  - intros (z & Hge & Hle). apply ge_float_inr in Hge as [-> ?].
    apply le_float_inr in Hle as [-> ?]. done.
  - intros (-> & H0 & H1). exists x.
    by rewrite ge_float_inr, le_float_inr.
Qed.

Lemma optional_inr {A} (check : A → validated A) (field r : option A) :
  optional check field = inr r ↔
  match field with
  | Some x => ∃ y, check x = inr y ∧ r = Some y
  | None => r = None
  end.
Proof.
  destruct field as [x|]; cbn.
  - destruct (check x) as [e|y]; cbn.
    + split; [discriminate|]. by intros (y & [=] & _).
    + split; [intros [= <-]; eauto|]. by intros (y' & [= <-] & ->).
  - split; [by intros [= <-]|by intros ->].
Qed.

(** Validation gives models that meet the constraints. *)
Lemma Carpet_validate_valid (p : Carpet.payload) (c : Carpet.t) :
  Carpet.validate p = inr c → valid_carpet c.
Proof.
  unfold Carpet.validate, valid_carpet. rewrite !optional_mret.
  destruct (Carpet.p_title p), (Carpet.p_region p), (Carpet.p_style p),
    (Carpet.p_size_cm p), (Carpet.p_price_usd p) as [pr|];
    cbn; try discriminate.
  destruct (ge_float "price_usd" 0 pr) as [e|price] eqn:Hpr;
    cbn; [discriminate|].
  apply ge_float_inr in Hpr as [-> Hpr].
  destruct (optional _ (Carpet.p_rarity_score p)) as [e|rarity] eqn:Hr;
    cbn; [discriminate|].
  intros [= <-]. cbn. split; [done|]. intros x ->.
  apply optional_inr in Hr.
  destruct (Carpet.p_rarity_score p) as [x'|]; [|done].
  destruct Hr as (y & Hy & [= <-]).
  apply rarity_check_inr in Hy as (-> & H0 & H1). done.
Qed.

Lemma Review_validate_valid (p : Review.payload) (r : Review.t) :
  Review.validate p = inr r → valid_review r.
Proof.
  unfold Review.validate, valid_review.
  destruct (Review.p_carpet_id p), (Review.p_name p),
    (Review.p_rating p) as [x|]; cbn; try discriminate.
  destruct (ge_int "rating" 1 x) as [e|y] eqn:H1; cbn; [discriminate|].
  apply ge_int_inr in H1 as [-> H1].
  destruct (le_int "rating" 5 x) as [e|y] eqn:H5; cbn; [discriminate|].
  apply le_int_inr in H5 as [-> H5].
  intros [= <-]. cbn. lia.
Qed.

Lemma OrderItem_validate_valid (p : OrderItem.payload) (i : OrderItem.t) :
  OrderItem.validate p = inr i → (1 ≤ OrderItem.quantity i)%Z.
Proof.
  unfold OrderItem.validate.
  destruct (OrderItem.p_carpet_id p); cbn; [|discriminate].
  destruct (optional _ (OrderItem.p_quantity p)) as [e|q] eqn:Hq;
    cbn; [discriminate|].
  destruct (OrderItem.p_price_usd p); cbn; [|discriminate].
  intros [= <-]. cbn. apply optional_inr in Hq.
  destruct (OrderItem.p_quantity p) as [x|].
  - destruct Hq as (y & Hy & ->). apply ge_int_inr in Hy as [-> Hy]. done.
  - subst. done.
Qed.

Lemma validate_items_valid (l : list OrderItem.payload)
    (items : list OrderItem.t) :
  Order.validate_items l = inr items →
  Forall (λ i, (1 ≤ OrderItem.quantity i)%Z) items.
Proof.
  revert items. induction l as [|p l IH]; intros items; cbn.
  { intros [= <-]. constructor. }
  destruct (OrderItem.validate p) as [e|i] eqn:Hi; cbn; [discriminate|].
  destruct (Order.validate_items l) as [e|rest]; cbn; [discriminate|].
  intros [= <-]. constructor; [by eapply OrderItem_validate_valid|by apply IH].
Qed.

Lemma Order_validate_valid (p : Order.payload) (o : Order.t) :
  Order.validate p = inr o → valid_order o.
Proof.
  unfold Order.validate, valid_order.
  destruct (Order.p_customer_name p), (Order.p_customer_email p),
    (Order.p_shipping_address p), (Order.p_items p) as [l|];
    cbn; try discriminate.
  destruct (Order.validate_items l) as [e|items] eqn:Hl; cbn; [discriminate|].
  destruct (Order.p_subtotal_usd p); cbn; [|discriminate].
  intros [= <-]. cbn. by apply (validate_items_valid l).
Qed.

Lemma samples_valid (s : Carpet.t) : s ∈ samples → valid_carpet s.
Proof.
  unfold samples. rewrite !elem_of_cons, elem_of_nil.
  intros [->|[->|[->|[]]]]; (split; [done|]); cbn;
    intros x [= <-]; by split.
Qed.

(** The documents of a collection keep a property across
    [create_document] when the new document has it. *)
Lemma create_document_Forall `{BaseModel A} (name : string) (data : A)
    (w : World) (name' : string) (P : StoredDoc → Prop) :
  (∀ sd, sd ∈ documents name' w → P sd) →
  (name' = name → ∀ oid, P {| doc_id := oid; doc_fields := model_dump data |}) →
  ∀ sd, sd ∈ documents name' (create_document name data w).2 → P sd.
Proof.
  intros Hold Hnew sd.
  destruct (create_document_effect name data w name')
    as [->|(-> & oid & _ & ->)]; [apply Hold|].
  rewrite elem_of_app, list_elem_of_singleton.
  intros [Hin| ->]; [by apply Hold|by apply Hnew].
Qed.

Lemma create_carpet_valid_store (c : Carpet.t) (w : World) :
  valid_carpet c →
  valid_store w → valid_store (create_document "carpet" c w).2.
Proof.
  intros Hc (Hcs & Hrs & Hos). split_and!.
  - apply create_document_Forall; [done|]. intros _ oid. cbn. eauto.
  - apply create_document_Forall; [done|]. discriminate.
  - apply create_document_Forall; [done|]. discriminate.
Qed.

Lemma create_order_valid_store (o : Order.t) (w : World) :
  valid_order o →
  valid_store w → valid_store (create_document "order" o w).2.
Proof.
  intros Ho (Hcs & Hrs & Hos). split_and!.
  - apply create_document_Forall; [done|]. discriminate.
  - apply create_document_Forall; [done|]. discriminate.
  - apply create_document_Forall; [done|]. intros _ oid. cbn. eauto.
Qed.

Lemma create_review_valid_store (r : Review.t) (w : World) :
  valid_review r →
  valid_store w → valid_store (create_document "review" r w).2.
Proof.
  intros Hr (Hcs & Hrs & Hos). split_and!.
  - apply create_document_Forall; [done|]. discriminate.
  - apply create_document_Forall; [done|]. intros _ oid. cbn. eauto.
  - apply create_document_Forall; [done|]. discriminate.
Qed.

Lemma valid_store_serve (r : Request) (w : World) :
  valid_store w → valid_store (serve r w).2.
Proof.
  apply (serve_preserves (λ w w', valid_store w → valid_store w')).
  - intros w1 w2 Hsame (Hcs & Hrs & Hos).
    split_and!; intros sd; rewrite Hsame; auto.
  - intros w1 w2 w3 H12 H23. auto.
  - intros p c w1 Hv. apply create_carpet_valid_store.
    by apply (Carpet_validate_valid p).
  - intros s w1 Hs. apply create_carpet_valid_store.
    by apply samples_valid.
  - intros p o w1 Hv. apply create_order_valid_store.
    by apply (Order_validate_valid p).
  - intros p rv w1 Hv. apply create_review_valid_store.
    by apply (Review_validate_valid p).
Qed.

Lemma valid_store_demo : valid_store demo.
Proof.
  split_and!; intros sd; rewrite documents_demo; by intros ?%elem_of_nil.
Qed.

(** X4: the constraints of the schemas hold of what is stored: if every
    stored carpet, review and order is the serialisation of a model that
    meets its constraints (price at least 0, rarity score within 0 to 1,
    rating within 1 to 5, quantities at least 1), the same holds after any
    request. *)
Theorem serve_valid_store (r : Request) (w : World) :
  valid_store w → valid_store (serve r w).2.
Proof.
  apply (serve_preserves (λ w w', valid_store w → valid_store w')).
  - intros w1 w2 Hsame (Hcs & Hrs & Hos).
    split_and!; intros sd; rewrite Hsame; auto.
  - intros w1 w2 w3 H12 H23. auto.
  - intros p c w1 Hv. apply create_carpet_valid_store.
    by apply (Carpet_validate_valid p).
  - intros s w1 Hs. apply create_carpet_valid_store.
    by apply samples_valid.
  - intros p o w1 Hv. apply create_order_valid_store.
    by apply (Order_validate_valid p).
  - intros p rv w1 Hv. apply create_review_valid_store.
    by apply (Review_validate_valid p).
Qed.

Lemma serve_valid_store_witness : valid_store (serve POST_seed demo).2.
Proof.
  apply (serve_valid_store POST_seed demo).
  split_and!; intros sd; rewrite documents_demo; intros Hin;
    by apply elem_of_nil in Hin.
Defined.

End invariants.

(** ** Creating documents *)

Section creating.

Local Open Scope list_scope.

Lemma create_carpet_unfold (carpet : Carpet.t) (w : World) :
  create_carpet carpet w =
  match create_document "carpet" carpet w with
  | (Return carpet_id, w') =>
      (Return (JObject {[ "id" := VStr carpet_id ]}), w')
  | (Raise e, w') => (Raise (HTTPException 500 (str_exn e)), w')
  end.
Proof.
  unfold create_carpet, try_except. rewrite M_bind_unfold.
  by destruct (create_document "carpet" carpet w) as [[x|e] w'].
Qed.

Lemma create_order_unfold (order : Order.t) (w : World) :
  create_order order w =
  match create_document "order" order w with
  | (Return order_id, w') =>
      (Return (JObject {[ "id" := VStr order_id ]}), w')
  | (Raise e, w') => (Raise (HTTPException 500 (str_exn e)), w')
  end.
Proof.
  unfold create_order, try_except. rewrite M_bind_unfold.
  by destruct (create_document "order" order w) as [[x|e] w'].
Qed.

Lemma create_review_unfold (review : Review.t) (w : World) :
  create_review review w =
  match create_document "review" review w with
  | (Return review_id, w') =>
      (Return (JObject {[ "id" := VStr review_id ]}), w')
  | (Raise e, w') => (Raise (HTTPException 500 (str_exn e)), w')
  end.
Proof.
  unfold create_review, try_except. rewrite M_bind_unfold.
  by destruct (create_document "review" review w) as [[x|e] w'].
Qed.

(** A create handler that does not return has stored nothing. *)
Lemma failed_create_documents `{BaseModel A} (name : string) (data : A)
    (w : World) (handler : M Body) :
  handler w =
    match create_document name data w with
    | (Return x, w') => (Return (JObject {[ "id" := VStr x ]}), w')
    | (Raise e, w') => (Raise (HTTPException 500 (str_exn e)), w')
    end →
  status (respond handler w).1 ≠ 200 →
  ∀ name', documents name' (respond handler w).2 = documents name' w.
Proof.
  intros Hh Hs name'. rewrite respond_snd. unfold respond in Hs.
  rewrite Hh in *.
  destruct (create_document_cases name data w)
    as [[_ Hsame]|(d & _ & _ & Hc)].
  - specialize (Hsame name').
    by destruct (create_document name data w) as [[x|e] w'].
  - rewrite Hc in Hs. cbn in Hs. done.
Qed.

(** X5: a request other than the seed that is not answered with status 200
    has stored nothing: every collection is as it was.  A failed create
    leaves no partial document. *)
Theorem failed_request_stores_nothing (r : Request) (w : World) :
  r ≠ POST_seed →
  status (serve r w).1 ≠ 200 →
  ∀ name, documents name (serve r w).2 = documents name w.
Proof.
  intros Hr Hs name.
  destruct r; try done; try (by apply serve_read_only_documents);
    cbn [serve] in *; unfold with_body in *.
  - destruct (Carpet.validate body) as [e|c]; [done|].
    apply (failed_create_documents "carpet" c); [|done].
    apply create_carpet_unfold.
  - destruct (Order.validate body) as [e|o]; [done|].
    apply (failed_create_documents "order" o); [|done].
    apply create_order_unfold.
  - destruct (Review.validate body) as [e|rv]; [done|].
    apply (failed_create_documents "review" rv); [|done].
    apply create_review_unfold.
Qed.

Lemma failed_request_stores_nothing_witness :
  documents "carpet" (serve (POST_carpets example_payload) failing).2
  = documents "carpet" failing.
Proof.
  apply (failed_request_stores_nothing (POST_carpets example_payload)
           failing).
  - discriminate.
  - vm_compute. discriminate.
Defined.

End creating.

(** ** Successful creates and the partial seed *)

Section create_and_seed.

Local Open Scope list_scope.

Lemma created_handler (r : Request) (name : string) (doc : document)
    (w : World) (d : Database) :
  created r = Some (name, doc) →
  db w = Some d →
  upcoming_fault d 0 = None →
  upcoming_oid d 0 ∉ doc_id <$> collection name d →
  serve r w =
  (OK (JObject {[ "id" := VStr (str_oid (upcoming_oid d 0)) ]}),
   {| db := Some (inserted name doc d); environ := environ w |}).
Proof.
  intros Hc Hd Hf Hfresh.
  destruct r; try discriminate; cbn [serve created] in *;
    unfold with_body, respond.
  - destruct (Carpet.validate body) as [e|c]; [discriminate|].
    injection Hc as <- <-.
    by rewrite create_carpet_unfold, (create_document_inserted _ _ _ d).
  - destruct (Order.validate body) as [e|o]; [discriminate|].
    injection Hc as <- <-.
    by rewrite create_order_unfold, (create_document_inserted _ _ _ d).
  - destruct (Review.validate body) as [e|rv]; [discriminate|].
    injection Hc as <- <-.
    by rewrite create_review_unfold, (create_document_inserted _ _ _ d).
Qed.

Lemma create_document_raise `{BaseModel A} (name : string) (data : A)
    (w : World) (d d' : Database) (e : exn) :
  db w = Some d →
  insert_one name (model_dump data) d = (Raise e, d') →
  create_document name data w
  = (Raise e, {| db := Some d'; environ := environ w |}).
Proof.
  intros Hd Hi. unfold create_document. rewrite M_bind_unfold.
  by rewrite (on_db_Some _ _ _ d Hd), Hi.
Qed.

(** X6: a create request with a valid body, on a store that answers and
    gives a new identifier, is answered with that identifier; its
    collection holds one more document, the serialised model, at the end;
    every other collection is as it was.  Nothing else is looked at: a
    review or an order is stored whether or not the carpets it names
    exist. *)
Theorem create_appends (r : Request) (name : string) (doc : document)
    (w : World) (d : Database) :
  created r = Some (name, doc) →
  db w = Some d →
  upcoming_fault d 0 = None →
  upcoming_oid d 0 ∉ doc_id <$> documents name w →
  ∃ w',
    serve r w
    = (OK (JObject {[ "id" := VStr (str_oid (upcoming_oid d 0)) ]}), w') ∧
    documents name w'
    = documents name w
      ++ [{| doc_id := upcoming_oid d 0; doc_fields := doc |}] ∧
    ∀ name', name' ≠ name → documents name' w' = documents name' w.
Proof.
  intros Hc Hd Hf Hfresh. rewrite (documents_db _ _ _ Hd) in Hfresh.
  eexists. split; [by apply (created_handler r name doc w d)|].
  split.
  - rewrite documents_inserted, (documents_db _ _ _ Hd).
    by rewrite decide_True.
  - intros name' Hne. rewrite documents_inserted, (documents_db _ _ _ Hd).
    by rewrite decide_False.
Qed.

Lemma create_appends_witness :
  ∃ w',
    serve (POST_reviews review_of_nothing) demo
    = (OK (JObject {[ "id" := VStr "000000000000000000000000" ]}), w') ∧
    documents "review" w'
    = [{| doc_id := upcoming_oid demo_db 0;
          doc_fields :=
            model_dump {| Review.carpet_id := "no such carpet";
                          Review.name := "Ada";
                          Review.rating := 5;
                          Review.comment := Some "Lovely" |} |}] ∧
    ∀ name', name' ≠ "review" → documents name' w' = documents name' demo.
Proof.
  apply (create_appends (POST_reviews review_of_nothing) "review" _
           demo demo_db).
  - reflexivity.
  - reflexivity.
  - reflexivity.
  - cbn. apply not_elem_of_nil.
Defined.

(** X7: the seed is not all-or-nothing.  On an empty catalog, when the
    count and the first insert succeed and the second insert fails, the
    seed is answered with status 500 and the catalog is left with the first
    sample alone; a later seed, on a store that answers, reports the
    catalog as already seeded and adds nothing, so the other two samples
    are never inserted. *)
Theorem seed_partial_failure (w : World) (d : Database) (msg : string) :
  db w = Some d →
  documents "carpet" w = [] →
  upcoming_fault d 0 = None →
  upcoming_fault d 1 = None →
  upcoming_fault d 2 = Some msg →
  ∃ w',
    serve POST_seed w = (Error 500 msg, w') ∧
    documents "carpet" w'
    = [{| doc_id := upcoming_oid d 1;
          doc_fields := model_dump sample_isfahan |}] ∧
    (upcoming_fault d 3 = None →
     ∃ w'', serve POST_seed w' = (OK already_seeded, w'') ∧
            documents "carpet" w'' = documents "carpet" w').
Proof.
  intros Hd He Hf0 Hf1 Hf2. rewrite (documents_db _ _ _ Hd) in He.
  set (d1 := inserted "carpet" (model_dump sample_isfahan) (counted d)).
  assert (collection "carpet" d1 =
          [{| doc_id := upcoming_oid d 1;
              doc_fields := model_dump sample_isfahan |}]) as E1.
  { unfold d1. rewrite collection_inserted, collection_counted, He.
    by rewrite upcoming_oid_counted. }
  assert (insert_one "carpet" (model_dump sample_tabriz) d1 =
          (Raise (PyMongoError msg),
           {| db_name := db_name d1;
              db_collections := db_collections d1;
              db_calls := db_calls d1 ++ [InsertOne "carpet"];
              db_fault := db_fault d1;
              db_new_oid := db_new_oid d1 |})) as Hfail.
  { unfold insert_one, call.
    assert (db_fault d1 (length (db_calls d1)) = Some msg) as ->; [|done].
    rewrite <- upcoming_fault_0. unfold d1.
    by rewrite upcoming_fault_inserted, upcoming_fault_counted. }
  eexists. split_and!.
  - cbn [serve]. unfold respond, seed_demo_data, samples, try_except.
    rewrite M_bind_unfold, (db_getitem_Some _ _ d Hd).
    rewrite M_bind_unfold, (on_db_Some _ _ _ d Hd).
    rewrite (count_documents_counted _ Hf0), He.
    cbn [fst snd length Nat.ltb Nat.leb for_each].
    rewrite !M_bind_unfold.
    rewrite (create_document_inserted _ _ _ (counted d)); first last.
    { rewrite collection_counted, He. apply not_elem_of_nil. }
    { by rewrite upcoming_fault_counted. }
    { done. }
    cbn [mret M_ret environ]. fold d1. rewrite !M_bind_unfold.
    rewrite (create_document_raise _ _
               {| db := Some d1; environ := environ w |} d1 _ _ eq_refl
               Hfail).
    reflexivity.
  - cbn. exact E1.
  - intros Hf3. eexists. split.
    + cbn [serve]. unfold respond. erewrite seed_nonempty; [done|done| |].
      * rewrite upcoming_fault_0. cbn [db_calls db_fault].
        rewrite length_app. cbn [length].
        change (db_fault d1) with (db_fault d).
        unfold d1, inserted, counted. cbn [db_calls].
        rewrite !length_app. cbn [length].
        unfold upcoming_fault in Hf3.
        by replace (length (db_calls d) + 1 + 1 + 1)%nat
          with (length (db_calls d) + 3)%nat by lia.
      * unfold collection in *. cbn [db_collections]. by rewrite E1.
    + done.
Qed.

Lemma seed_partial_failure_witness :
  ∃ w',
    serve POST_seed flaky = (Error 500 "connection reset", w') ∧
    documents "carpet" w'
    = [{| doc_id := oid_digits 24 1;
          doc_fields := model_dump sample_isfahan |}] ∧
    ∃ w'', serve POST_seed w' = (OK already_seeded, w'') ∧
           documents "carpet" w'' = documents "carpet" w'.
Proof.
  destruct (seed_partial_failure flaky
              {| db_name := Some "carpets";
                 db_collections := ∅;
                 db_calls := [];
                 db_fault := λ n, if (n =? 2)%nat
                                  then Some "connection reset"
                                  else None;
                 db_new_oid := oid_digits 24 |}
              "connection reset")
    as (w' & Hs & Hdocs & Hlater); try reflexivity.
  exists w'. split_and!; [exact Hs|exact Hdocs|].
  apply Hlater. reflexivity.
Defined.

End create_and_seed.

(** ** Queries on stored carpets *)

Section stored_carpets.

Local Open Scope list_scope.

Lemma dump_carpet_region (c : Carpet.t) :
  model_dump c !! "region" = Some (VStr (Carpet.region c)).
Proof. unfold model_dump, Carpet.dump. by simplify_map_eq. Qed.

Lemma dump_carpet_style (c : Carpet.t) :
  model_dump c !! "style" = Some (VStr (Carpet.style c)).
Proof. unfold model_dump, Carpet.dump. by simplify_map_eq. Qed.

Lemma dump_carpet_price (c : Carpet.t) :
  model_dump c !! "price_usd" = Some (VFloat (Carpet.price_usd c)).
Proof. unfold model_dump, Carpet.dump. by simplify_map_eq. Qed.

Lemma dump_carpet_featured (c : Carpet.t) :
  model_dump c !! "is_featured" = Some (VBool (Carpet.is_featured c)).
Proof. unfold model_dump, Carpet.dump. by simplify_map_eq. Qed.

Lemma as_dict_lookup (sd : StoredDoc) (k : string) :
  k ≠ "_id" → as_dict sd !! k = doc_fields sd !! k.
Proof. intros Hk. unfold as_dict. by rewrite lookup_insert_ne. Qed.

(** The filter of a query selects a stored carpet exactly when the fields
    of the carpet meet the constraints of the query. *)
Lemma matches_dump_carpet (q : CatalogQuery.t) (sd : StoredDoc)
    (c : Carpet.t) :
  doc_fields sd = model_dump c →
  matches (query_filter q) (as_dict sd) = true ↔ carpet_satisfies q c.
Proof.
  intros Hc. split.
  - intros Hm. apply matches_satisfies in Hm as (Hr & Hs & Hp & Hf).
    split_and!.
    + intros r Hq. specialize (Hr r Hq).
      rewrite stringify_id_lookup, as_dict_lookup, Hc in Hr by done.
      rewrite dump_carpet_region in Hr. congruence.
    + intros s Hq. specialize (Hs s Hq).
      rewrite stringify_id_lookup, as_dict_lookup, Hc in Hs by done.
      rewrite dump_carpet_style in Hs. congruence.
    + intros m Hq. destruct (Hp m Hq) as (x & Hx & Hle).
      rewrite stringify_id_lookup, as_dict_lookup, Hc in Hx by done.
      rewrite dump_carpet_price in Hx. cbn in Hx. by injection Hx as <-.
    + intros Hq. specialize (Hf Hq).
      rewrite stringify_id_lookup, as_dict_lookup, Hc in Hf by done.
      rewrite dump_carpet_featured in Hf. congruence.
  - intros (Hr & Hs & Hp & Hf). apply matches_lookup. intros k cnd Hk.
    destruct (decide (k = "region")) as [->|?].
    { rewrite query_filter_region in Hk.
      destruct (provided (CatalogQuery.region q)) as [r|] eqn:E;
        [|discriminate].
      injection Hk as <-. rewrite as_dict_lookup, Hc by done.
      rewrite dump_carpet_region, (Hr r eq_refl). cbn.
      apply String.eqb_refl. }
    destruct (decide (k = "style")) as [->|?].
    { rewrite query_filter_style in Hk.
      destruct (provided (CatalogQuery.style q)) as [r|] eqn:E;
        [|discriminate].
      injection Hk as <-. rewrite as_dict_lookup, Hc by done.
      rewrite dump_carpet_style, (Hs r eq_refl). cbn.
      apply String.eqb_refl. }
    destruct (decide (k = "price_usd")) as [->|?].
    { rewrite query_filter_price in Hk.
      destruct (CatalogQuery.max_price q) as [m|] eqn:E; [|discriminate].
      injection Hk as <-. rewrite as_dict_lookup, Hc by done.
      rewrite dump_carpet_price. cbn. apply Qle_bool_iff. by apply Hp. }
    destruct (decide (k = "is_featured")) as [->|?].
    { rewrite query_filter_featured in Hk.
      destruct (CatalogQuery.featured_only q) eqn:E; [|discriminate].
      injection Hk as <-. rewrite as_dict_lookup, Hc by done.
      by rewrite dump_carpet_featured, (Hf eq_refl). }
    rewrite query_filter_other in Hk; [discriminate|].
    rewrite !not_elem_of_cons. split_and!; try done. apply not_elem_of_nil.
Qed.

Lemma valid_store_models (w : World) : valid_store w → stored_models w.
Proof.
  intros (Hcs & _ & _) sd Hin. destruct (Hcs sd Hin) as (c & Hc & _). eauto.
Qed.

(** X8: on a store that answers and holds at most 50 carpets, each the
    serialisation of a model, the catalog query returns exactly the stored
    carpets whose fields meet its constraints (region and style equal to
    the non-empty ones asked for, price at most the maximum, featured when
    only featured ones are asked for), each with its identifier as a
    string; none is left out. *)
Theorem query_carpets_exact (q : CatalogQuery.t) (w : World)
    (d : Database) :
  db w = Some d →
  upcoming_fault d 0 = None →
  stored_models w →
  (length (documents "carpet" w) ≤ 50)%nat →
  ∃ l, (query_carpets q w).1 = Return (JArray l) ∧
       ∀ doc, doc ∈ l ↔
              ∃ sd c, sd ∈ documents "carpet" w ∧
                      doc_fields sd = model_dump c ∧
                      carpet_satisfies q c ∧
                      doc = stringify_id sd.
Proof.
  intros Hd Hf Hcs Hlen. eexists. split.
  { by rewrite query_carpets_outcome, Hd, Hf. }
  intros doc. unfold selected.
  rewrite take_ge.
  2:{ etrans; [apply length_filter|done]. }
  rewrite list_elem_of_fmap. split.
  - intros (sd & -> & Hsd). apply list_elem_of_filter in Hsd as [Hm Hin].
    destruct (Hcs sd Hin) as (c & Hc).
    exists sd, c. split_and!; try done. by apply (matches_dump_carpet q sd).
  - intros (sd & c & Hin & Hc & Hsat & ->). exists sd. split; [done|].
    apply list_elem_of_filter. split; [|done].
    by apply (matches_dump_carpet q sd c).
Qed.

Lemma query_carpets_exact_witness :
  ∃ l, (query_carpets featured_query (serve POST_seed demo).2).1
       = Return (JArray l) ∧
       ∀ doc, doc ∈ l ↔
              ∃ sd c, sd ∈ documents "carpet" (serve POST_seed demo).2 ∧
                      doc_fields sd = model_dump c ∧
                      carpet_satisfies featured_query c ∧
                      doc = stringify_id sd.
Proof.
  apply (query_carpets_exact featured_query (serve POST_seed demo).2
           (with_samples demo_db)).
  - reflexivity.
  - reflexivity.
  - apply valid_store_models, (valid_store_serve POST_seed demo),
      valid_store_demo.
  - vm_compute. lia.
Defined.

(** On the seeded catalog the query for the featured carpets of at most
    30000 dollars returns the Tabriz carpet and leaves the two others out:
    the Isfahan one is too expensive, the Kashan one is not featured. *)
Lemma query_carpets_featured :
  (query_carpets featured_query seeded).1
  = Return (JArray [stringify_id {| doc_id := oid_digits 24 2;
                                    doc_fields := model_dump sample_tabriz |}]).
Proof. vm_compute. reflexivity. Qed.

Lemma lookup_id_unique (docs : list StoredDoc) (sd : StoredDoc) :
  NoDup (doc_id <$> docs) → sd ∈ docs → lookup_id (doc_id sd) docs = Some sd.
Proof.
  intros Hnd Hin. apply list_elem_of_split in Hin as (l1 & l2 & ->).
  rewrite fmap_app, fmap_cons in Hnd.
  apply NoDup_app in Hnd as (_ & Hdis & _).
  unfold lookup_id. rewrite filter_app, filter_none.
  - rewrite filter_cons_True; [done|]. by apply matches_id.
  - intros sd' Hsd' Hm. apply matches_id in Hm.
    apply (Hdis (doc_id sd')).
    + apply list_elem_of_fmap. eauto.
    + rewrite Hm. left.
Qed.

Lemma query_carpets_run (q : CatalogQuery.t) (w : World) (d : Database) :
  db w = Some d →
  upcoming_fault d 0 = None →
  query_carpets q w =
  (Return (JArray (selected (query_filter q) w)),
   {| db := Some (logged (Find "carpet") d); environ := environ w |}).
Proof.
  intros Hd Hf. unfold query_carpets, get_documents, try_except.
  rewrite M_bind_unfold, (on_db_Some _ _ _ d Hd).
  unfold find, call. rewrite upcoming_fault_0 in Hf. rewrite Hf.
  unfold selected. by rewrite (documents_db _ _ _ Hd).
Qed.

Lemma upcoming_fault_logged (op : StoreOp) (d : Database) (k : nat) :
  upcoming_fault (logged op d) k = upcoming_fault d (S k).
Proof.
  unfold upcoming_fault, logged. cbn. rewrite length_app. cbn.
  f_equal. lia.
Qed.

(** X9: the query and the lookup agree.  On a store that answers, whose
    carpets have pairwise distinct twelve-byte identifiers, every carpet a
    query returns carries its identifier as a string under ["_id"], and
    looking that identifier up afterwards returns the same document. *)
Theorem query_then_get (q : CatalogQuery.t) (w : World) (d : Database) :
  db w = Some d →
  upcoming_fault d 0 = None →
  upcoming_fault d 1 = None →
  NoDup (doc_id <$> documents "carpet" w) →
  (∀ sd, sd ∈ documents "carpet" w → wf_oid (doc_id sd)) →
  ∃ l w',
    query_carpets q w = (Return (JArray l), w') ∧
    ∀ doc, doc ∈ l →
           ∃ carpet_id, doc !! "_id" = Some (VStr carpet_id) ∧
                        (get_carpet carpet_id w').1 = Return (JObject doc).
Proof.
  intros Hd Hf0 Hf1 Hnd Hwf. rewrite (documents_db _ _ _ Hd) in *.
  eexists _, _. split; [by apply query_carpets_run|].
  intros doc Hdoc. unfold selected in Hdoc.
  apply list_elem_of_fmap in Hdoc as (sd & -> & Hsd).
  apply elem_of_take in Hsd as (i & Hi & _).
  apply list_elem_of_lookup_2, list_elem_of_filter in Hi as [_ Hin].
  rewrite (documents_db _ _ _ Hd) in Hin.
  exists (str_oid (doc_id sd)). split.
  { unfold stringify_id. by rewrite lookup_insert_eq. }
  rewrite get_carpet_outcome. cbn [db].
  rewrite (ObjectId_of_str_oid _ (Hwf sd Hin)).
  rewrite upcoming_fault_logged, Hf1.
  change (collection "carpet" (logged (Find "carpet") d))
    with (collection "carpet" d).
  by rewrite lookup_id_unique.
Qed.

Lemma query_then_get_witness :
  ∃ l w',
    query_carpets empty_region_query seeded = (Return (JArray l), w') ∧
    ∀ doc, doc ∈ l →
           ∃ carpet_id, doc !! "_id" = Some (VStr carpet_id) ∧
                        (get_carpet carpet_id w').1 = Return (JObject doc).
Proof.
  apply (query_then_get empty_region_query seeded (with_samples demo_db)).
  - reflexivity.
  - reflexivity.
  - reflexivity.
  - refine (bool_decide_unpack _ _). vm_compute. exact I.
  - apply Forall_forall. refine (bool_decide_unpack _ _).
    vm_compute. exact I.
Defined.

End stored_carpets.

(** ** Create, then get *)

Section create_then_get.

Import Carpet.

(** What an accepted payload says of the carpet it validates to. *)
Lemma Carpet_validate_fields (p : payload) (c : t) :
  validate p = inr c →
  p_title p = Some (title c) ∧
  p_region p = Some (region c) ∧
  p_style p = Some (style c) ∧
  p_size_cm p = Some (size_cm c) ∧
  p_price_usd p = Some (price_usd c) ∧
  p_rarity_score p = rarity_score c ∧
  description c = p_description p ∧
  knot_density_kpsi c = p_knot_density_kpsi p ∧
  age_years c = p_age_years p ∧
  materials c = default [] (p_materials p) ∧
  images c = default [] (p_images p) ∧
  colors c = default [] (p_colors p) ∧
  is_featured c = default false (p_is_featured p) ∧
  in_stock c = default true (p_in_stock p).
Proof.
  unfold validate. rewrite !optional_mret.
  destruct (p_title p), (p_region p), (p_style p), (p_size_cm p),
    (p_price_usd p) as [pr|]; cbn; try discriminate.
  destruct (ge_float "price_usd" 0 pr) as [e|price] eqn:Hpr;
    cbn; [discriminate|].
  apply ge_float_inr in Hpr as [-> Hpr].
  destruct (optional _ (p_rarity_score p)) as [e|rarity] eqn:Hr;
    cbn; [discriminate|].
  apply optional_inr in Hr.
  intros [= <-]. cbn in *. split_and!; try done.
  destruct (p_rarity_score p) as [x|]; [|done].
  destruct Hr as (y & Hy & ->).
  by apply rarity_check_inr in Hy as (-> & _).
Qed.

Lemma stored_field (o : ObjectId) (c : t) (k : string) :
  k ≠ "_id" →
  stringify_id {| doc_id := o; doc_fields := model_dump c |} !! k
  = model_dump c !! k.
Proof.
  intros Hk. by rewrite stringify_id_lookup, as_dict_lookup.
Qed.

Lemma dom_stringify_id (sd : StoredDoc) :
  dom (stringify_id sd) = {[ "_id" ]} ∪ dom (doc_fields sd).
Proof.
  unfold stringify_id, as_dict. by rewrite insert_insert_eq, dom_insert_L.
Qed.

(** C2: a valid Carpet payload, created on a store that answers and gives
    it a new twelve-byte identifier, is created and answered with the
    identifier; the lookup of that identifier then returns a document that
    holds the identifier and, on every field of the model, the value of
    the payload: the strings, numbers and lists as given, null for an
    optional value that is not given, the empty list for a list that is
    not given, and the defaults of the two flags.  It has no other
    field. *)
Theorem create_then_get_carpet (p : payload) (carpet : t)
    (w : World) (d : Database) :
  validate p = inr carpet →
  db w = Some d →
  upcoming_fault d 0 = None →
  upcoming_fault d 1 = None →
  wf_oid (upcoming_oid d 0) →
  (upcoming_oid d 0 ∉ doc_id <$> documents "carpet" w) →
  ∃ carpet_id w' doc,
    serve (POST_carpets p) w
    = (OK (JObject {[ "id" := VStr carpet_id ]}), w') ∧
    create_carpet carpet w
    = (Return (JObject {[ "id" := VStr carpet_id ]}), w') ∧
    (get_carpet carpet_id w').1 = Return (JObject doc) ∧
    doc !! "_id" = Some (VStr carpet_id) ∧
    doc !! "title" = VStr <$> p_title p ∧
    doc !! "description" = Some (from_option VStr VNone (p_description p)) ∧
    doc !! "region" = VStr <$> p_region p ∧
    doc !! "style" = VStr <$> p_style p ∧
    doc !! "size_cm" = VStr <$> p_size_cm p ∧
    doc !! "materials" = Some (VList (VStr <$> default [] (p_materials p))) ∧
    doc !! "knot_density_kpsi"
    = Some (from_option VInt VNone (p_knot_density_kpsi p)) ∧
    doc !! "age_years" = Some (from_option VInt VNone (p_age_years p)) ∧
    doc !! "price_usd" = (λ x : Q, VFloat x) <$> p_price_usd p ∧
    doc !! "images" = Some (VList (VStr <$> default [] (p_images p))) ∧
    doc !! "colors" = Some (VList (VStr <$> default [] (p_colors p))) ∧
    doc !! "rarity_score"
    = Some (from_option (λ x : Q, VFloat x) VNone (p_rarity_score p)) ∧
    doc !! "is_featured" = Some (VBool (default false (p_is_featured p))) ∧
    doc !! "in_stock" = Some (VBool (default true (p_in_stock p))) ∧
    dom doc = list_to_set ("_id" :: fields).
Proof.
  intros Hv Hd Hf0 Hf1 Hwf Hfresh.
  rewrite (documents_db _ _ _ Hd) in Hfresh.
  pose proof (create_carpet_inserted carpet w d Hd Hf0 Hfresh) as Hc.
  destruct (Carpet_validate_fields p carpet Hv)
    as (Hti & Hre & Hst & Hsi & Hpr & Hra & Hde & Hkn & Hag & Hma & Him
        & Hco & Hfe & Hin).
  exists (str_oid (upcoming_oid d 0)),
    {| db := Some (inserted "carpet" (model_dump carpet) d);
       environ := environ w |},
    (stringify_id {| doc_id := upcoming_oid d 0;
                     doc_fields := model_dump carpet |}).
  split; [|split; [|split; [|split]]].
  - cbn [serve]. unfold with_body. rewrite Hv.
    apply respond_Return; [done|apply renderable_id].
  - done.
  - rewrite get_carpet_outcome. cbn [db].
    rewrite (ObjectId_of_str_oid _ Hwf).
    rewrite upcoming_fault_inserted, Hf1, collection_inserted.
    by rewrite lookup_id_last.
  - unfold stringify_id. by rewrite lookup_insert_eq.
  - rewrite dom_stringify_id. cbn [doc_fields]. rewrite dom_dump_carpet.
    rewrite !stored_field by done.
    unfold model_dump, dump.
    rewrite Hti, Hre, Hst, Hsi, Hpr, <- Hra, Hde, Hkn, Hag, Hma, Him, Hco,
      Hfe, Hin.
    split_and!; by simplify_map_eq.
Qed.

Lemma create_then_get_carpet_witness :
  ∃ carpet_id w' doc,
    serve (POST_carpets kerman_payload) demo
    = (OK (JObject {[ "id" := VStr carpet_id ]}), w') ∧
    create_carpet kerman_carpet demo
    = (Return (JObject {[ "id" := VStr carpet_id ]}), w') ∧
    (get_carpet carpet_id w').1 = Return (JObject doc) ∧
    doc !! "_id" = Some (VStr carpet_id) ∧
    doc !! "title" = Some (VStr "Kerman Vase") ∧
    doc !! "description"
    = Some (VStr "Vase carpet with a floral lattice") ∧
    doc !! "region" = Some (VStr "Kerman") ∧
    doc !! "style" = Some (VStr "vase") ∧
    doc !! "size_cm" = Some (VStr "200x300") ∧
    doc !! "materials" = Some (VList [VStr "wool"; VStr "silk"]) ∧
    doc !! "knot_density_kpsi" = Some (VInt 400) ∧
    doc !! "age_years" = Some (VInt 90) ∧
    doc !! "price_usd" = Some (VFloat (25001 # 2)%Q) ∧
    doc !! "images" = Some (VList [VStr "kerman.jpg"]) ∧
    doc !! "colors" = Some (VList [VStr "red"; VStr "ivory"]) ∧
    doc !! "rarity_score" = Some (VFloat (1 # 2)%Q) ∧
    doc !! "is_featured" = Some (VBool true) ∧
    doc !! "in_stock" = Some (VBool false) ∧
    dom doc = list_to_set ("_id" :: fields).
Proof.
  apply (create_then_get_carpet kerman_payload kerman_carpet demo demo_db).
  - reflexivity.
  - reflexivity.
  - reflexivity.
  - reflexivity.
  - reflexivity.
  - cbn. apply not_elem_of_nil.
Defined.

End create_then_get.

(** ** The status of a lookup *)

Section lookup_status.

(** C6 (as amended): the handler of the lookup of one carpet returns the
    carpet stored under the identifier asked for, or raises the error of
    status 400, nothing else.  The status is 400 when the identifier is
    malformed, when no carpet has it, when there is no store, and when the
    store call fails.  A carpet that is found is answered with status 200,
    unless it cannot be rendered as JSON, as when it holds an infinite
    number: then the answer has status 500. *)
Theorem get_carpet_status_400 (carpet_id : string) (w : World) :
  let h := (get_carpet carpet_id w).1 in
  let r := (serve (GET_carpet carpet_id) w).1 in
  ((∃ o sd, ObjectId_of_str carpet_id = Some o ∧
            sd ∈ documents "carpet" w ∧ doc_id sd = o ∧
            h = Return (JObject (stringify_id sd)) ∧
            r = if renderable_document (stringify_id sd)
                then OK (JObject (stringify_id sd))
                else Error 500 "Internal Server Error") ∨
   ∃ detail, h = Raise (HTTPException 400 detail) ∧ r = Error 400 detail) ∧
  (ObjectId_of_str carpet_id = None → status r = 400) ∧
  (∀ o, ObjectId_of_str carpet_id = Some o →
        o ∉ doc_id <$> documents "carpet" w → status r = 400) ∧
  (db w = None → status r = 400) ∧
  (∀ d msg, db w = Some d → upcoming_fault d 0 = Some msg → status r = 400).
Proof.
  cbn. rewrite respond_fst, get_carpet_outcome. unfold documents.
  destruct (db w) as [d|].
  2:{ split_and!; eauto. }
  destruct (ObjectId_of_str carpet_id) as [o|].
  2:{ split_and!; eauto. }
  destruct (upcoming_fault d 0) as [msg|] eqn:Hfault.
  { split_and!; eauto. }
  destruct (lookup_id o (collection "carpet" d)) as [sd|] eqn:Hl.
  - apply lookup_id_Some in Hl as [Hin Hid]. cbn [renderable_body].
    destruct (renderable_document (stringify_id sd)) eqn:Hren.
    + split_and!; try done.
      * left. exists o, sd. by rewrite Hren.
      * intros o' [= <-] Hfresh. exfalso. apply Hfresh.
        apply list_elem_of_fmap. eauto.
      * intros d' msg [= <-]. congruence.
    + split_and!.
      * left. exists o, sd. by rewrite Hren.
      * done.
      * intros o' [= <-] Hfresh. exfalso. apply Hfresh.
        apply list_elem_of_fmap. eauto.
      * done.
      * intros d' msg [= <-]. congruence.
  - split_and!; eauto.
Qed.

(** C6, counterexample: on a store whose carpet has an infinite price, the
    lookup of its identifier finds the carpet, and the handler returns it;
    the document cannot be rendered, and the request is answered with
    status 500: neither the carpet nor status 400. *)
Lemma get_carpet_not_rendered :
  let carpet_id := str_oid (oid_digits 24 1) in
  ObjectId_of_str carpet_id = Some (oid_digits 24 1) ∧
  (∃ sd, documents "carpet" priceless = [sd] ∧
         doc_id sd = oid_digits 24 1 ∧
         doc_fields sd !! "price_usd" = Some (VFloat PosInf) ∧
         (get_carpet carpet_id priceless).1
         = Return (JObject (stringify_id sd))) ∧
  (serve (GET_carpet carpet_id) priceless).1
  = Error 500 "Internal Server Error" ∧
  status (serve (GET_carpet carpet_id) priceless).1 ≠ 400 ∧
  ¬ ∃ body, (serve (GET_carpet carpet_id) priceless).1 = OK body.
Proof.
  assert ((serve (GET_carpet (str_oid (oid_digits 24 1))) priceless).1
          = Error 500 "Internal Server Error") as E.
  { vm_compute. reflexivity. }
  cbn zeta. split_and!.
  - vm_compute. reflexivity.
  - eexists. split_and!; vm_compute; reflexivity.
  - exact E.
  - rewrite E. cbn. lia.
  - rewrite E. by intros [body ?].
Qed.

End lookup_status.

(** ** The fields of the diagnostics *)

Section diagnostic_fields.

(** X14: the diagnostics always report the backend as running.  Without a
    store the other fields keep their initial values, whatever the
    environment holds; with a store, even one whose call fails, they report
    the connection, the name of the database (or a fixed text when it has
    none), and whether [DATABASE_URL] is set: an empty value counts as not
    set. *)
Theorem test_database_fields (w : World) :
  ∃ response,
    (test_database w).1 = Return (JObject response) ∧
    response !! "backend" = Some (VStr "✅ Running") ∧
    match db w with
    | None =>
        response !! "database_url" = Some VNone ∧
        response !! "database_name" = Some VNone ∧
        response !! "connection_status" = Some (VStr "Not Connected")
    | Some d =>
        response !! "database_url"
        = Some (VStr (match environ w !! "DATABASE_URL" with
                      | Some (String _ _) => "✅ Set"
                      | _ => "❌ Not Set"
                      end)) ∧
        response !! "database_name"
        = Some (VStr (match db_name d with
                      | Some name => name
                      | None => "✅ Connected"
                      end)) ∧
        response !! "connection_status" = Some (VStr "Connected")
    end.
Proof.
  unfold test_database. rewrite M_bind_unfold.
  destruct (db w) as [d|] eqn:Hd.
  - rewrite M_bind_unfold. unfold getenv, try_except.
    rewrite M_bind_unfold, (on_db_Some _ _ _ d Hd).
    destruct (list_collection_names d) as [[names|e] d'];
      (eexists; split; [reflexivity|]);
      (split; [by simplify_map_eq|]);
      (split_and!; [|by destruct (db_name d); simplify_map_eq
                    |by simplify_map_eq]);
      by destruct (environ w !! "DATABASE_URL") as [[|]|]; simplify_map_eq.
  - eexists. split; [reflexivity|]. split_and!; by simplify_map_eq.
Qed.

End diagnostic_fields.
